(** * pub: JSON lines from stdin to HTTP requests

    A shallow embedding of [main.go] (package [main] of
    octoberswimmer/pub) and the properties of its per-line pipeline:
    [run] (the line loop), [processLine] (decode, evaluate, assemble,
    send, report), [evaluateExpression] and [getEnvMap].

    Go strings are byte strings: they are modelled as [string], one
    [ascii] per byte.  The standard-library functions the program calls on
    strings ([strings.TrimSpace], [strings.SplitN]) are modelled on bytes,
    with the UTF-8 encodings of the Unicode white space written out. *)

From Stdlib Require Import Ascii ZArith Lia.
From Stdlib Require String.
From stdpp Require Import base list strings pretty gmap fin_maps.

Local Open Scope Z_scope.

(** ** Byte strings *)

Module Bytes.

Definition bytes := list ascii.

Definition of_codes (l : list N) : bytes := map ascii_of_N l.

(** [strip_prefix p s] is [Some r] when [s = p ++ r]. *)
Fixpoint strip_prefix (p s : bytes) : option bytes :=
  match p, s with
  | [], _ => Some s
  | _ :: _, [] => None
  | a :: p', b :: s' =>
      if Ascii.eqb a b then strip_prefix p' s' else None
  end.

(** The first pattern of [ps] that starts [s], removed. *)
Fixpoint strip_any (ps : list bytes) (s : bytes) : option bytes :=
  match ps with
  | [] => None
  | p :: ps' =>
      match strip_prefix p s with
      | Some r => Some r
      | None => strip_any ps' s
      end
  end.

(** Remove leading patterns for as long as one matches; [n] bounds the
    number of rounds (every round removes at least one byte when no
    pattern is empty, so [length s] rounds are enough). *)
Fixpoint trim_n (n : nat) (ps : list bytes) (s : bytes) : bytes :=
  match n with
  | O => s
  | S n' =>
      match strip_any ps s with
      | Some r => trim_n n' ps r
      | None => s
      end
  end.

(** Concatenations of patterns of [ps]. *)
Inductive runs (ps : list bytes) : bytes -> Prop :=
| runs_nil : runs ps []
| runs_cons p s : p ∈ ps -> runs ps s -> runs ps (p ++ s).

(** The code points for which [unicode.IsSpace] holds, in UTF-8:
    U+0009..U+000D, U+0020, U+0085, U+00A0, U+1680, U+2000..U+200A,
    U+2028, U+2029, U+202F, U+205F, U+3000. *)
Definition space_runes : list bytes :=
  Eval cbv in map of_codes
    [ [9]; [10]; [11]; [12]; [13]; [32];
      [194; 133]; [194; 160];
      [225; 154; 128];
      [226; 128; 128]; [226; 128; 129]; [226; 128; 130]; [226; 128; 131];
      [226; 128; 132]; [226; 128; 133]; [226; 128; 134]; [226; 128; 135];
      [226; 128; 136]; [226; 128; 137]; [226; 128; 138];
      [226; 128; 168]; [226; 128; 169]; [226; 128; 175];
      [226; 129; 159];
      [227; 128; 128] ]%N.

(** The same encodings read from the end of a string. *)
Definition space_runes_rev : list bytes :=
  Eval cbv in map (@rev ascii) space_runes.

Definition TrimLeftSpace (s : bytes) : bytes :=
  trim_n (length s) space_runes s.

Definition TrimRightSpace (s : bytes) : bytes :=
  rev (trim_n (length s) space_runes_rev (rev s)).

(** A string made of white space only. *)
Definition blank (s : bytes) : Prop := runs space_runes s.

Definition leading_space (s : bytes) : bool :=
  bool_decide (is_Some (strip_any space_runes s)).

Definition trailing_space (s : bytes) : bool :=
  bool_decide (is_Some (strip_any space_runes_rev (rev s))).

(** [cut sep s]: the parts of [s] before and after the first occurrence
    of [sep] ([strings.Index] followed by the two slices). *)
Fixpoint cut (sep s : bytes) : option (bytes * bytes) :=
  match strip_prefix sep s with
  | Some r => Some ([], r)
  | None =>
      match s with
      | [] => None
      | c :: s' =>
          match cut sep s' with
          | Some (b, a) => Some (c :: b, a)
          | None => None
          end
      end
  end.

(** [strings.SplitN] for a non-empty separator and [n >= 0]: at most [n]
    parts, the last one holding the unsplit rest. *)
Fixpoint SplitN (s sep : bytes) (n : nat) : list bytes :=
  match n with
  | O => []
  | S O => [s]
  | S n' =>
      match cut sep s with
      | Some (b, a) => b :: SplitN a sep n'
      | None => [s]
      end
  end.

End Bytes.

(** ** Package [strings] on [string] *)

Module strings.

Definition to_bytes : string -> Bytes.bytes := String.list_ascii_of_string.
Definition of_bytes : Bytes.bytes -> string := String.string_of_list_ascii.

Definition TrimSpace (s : string) : string :=
  of_bytes (Bytes.TrimRightSpace (Bytes.TrimLeftSpace (to_bytes s))).

Definition SplitN (s sep : string) (n : nat) : list string :=
  map of_bytes (Bytes.SplitN (to_bytes s) (to_bytes sep) n).

(** White space only (the empty string included). *)
Definition blank (s : string) : Prop := Bytes.blank (to_bytes s).

Definition leading_space (s : string) : bool :=
  Bytes.leading_space (to_bytes s).
Definition trailing_space (s : string) : bool :=
  Bytes.trailing_space (to_bytes s).

(** [strings.Contains]. *)
Definition Contains (s sub : string) : bool :=
  bool_decide (is_Some (Bytes.cut (to_bytes sub) (to_bytes s))).

End strings.

(** ** Errors

    A Go [error] is represented by its [Error()] text; [fmt.Errorf] with a
    [%w] or [%s] verb at the end concatenates. *)

Definition error := string.

Inductive result (A : Type) : Type :=
| Ok (a : A)
| Err (e : error).
Arguments Ok {A} a.
Arguments Err {A} e.

Definition result_bind {A B} (r : result A) (k : A -> result B) : result B :=
  match r with
  | Ok a => k a
  | Err e => Err e
  end.

(** [if err != nil { return fmt.Errorf(prefix + "%w", err) }] *)
Definition wrap {A} (prefix : string) (r : result A) : result A :=
  match r with
  | Ok a => Ok a
  | Err e => Err (prefix +:+ e)
  end.

Declare Scope result_scope.
Delimit Scope result_scope with result.
Notation "x <- e ;; k" := (result_bind e (fun x => k))
  (at level 100, e at next level, right associativity) : result_scope.

Definition newline : string := String (ascii_of_N 10) EmptyString.

(** The line feed written out, for the statements that spell a text. *)
Abbreviation LF := (String "010"%char EmptyString).

(** ** Package [net/http]: requests, responses and headers *)

(** [http.Header] is [map[string][]string]. *)
Abbreviation Header := (gmap string (list string)).

Record Request := {
  Method : string;
  URL : string;
  ReqHeader : Header;
  Body : string
}.

Record Response := {
  Status : string;        (* e.g. 404 Not Found *)
  StatusCode : Z;
  RespBody : string       (* what [ReadFrom] got out of [resp.Body] *)
}.

(** ** The evaluation context

    [map[string]interface{}{"input": input, "env": getEnvMap()}] *)

Record Bindings (value : Type) := {
  input : value;
  env : gmap string string
}.
Arguments input {value} _.
Arguments env {value} _.

(** ** The libraries and the outside world

    What the program takes from outside its own source: the dynamic values
    of [interface{}], [encoding/json], [expr], the [%v] verb of [fmt],
    the checks and the header-key canonicalisation of [net/http], the
    process environment and the HTTP peer.  The program is verified for
    every instance. *)

Class Runtime := {
  value : Type;
  program : Type;
  world : Type;
  json_Unmarshal : string -> result value;
  json_Marshal : value -> result string;
  expr_Compile : string -> Bindings value -> result program;
  expr_Run : program -> Bindings value -> result value;
  (** [fmt.Sprintf("%v", v)] *)
  fmt_v : value -> string;
  (** the method and URL checks of [http.NewRequest] *)
  http_NewRequest_check : string -> string -> option error;
  (** [textproto.CanonicalMIMEHeaderKey], applied by [Header.Set] *)
  CanonicalMIMEHeaderKey : string -> string;
  (** [os.Environ()], entries of the form key=value *)
  os_Environ : world -> list string;
  (** [client.Do(req)] followed by reading the response body *)
  client_Do : Request -> world -> result Response * world
}.

(** What the process does to its surroundings, in order. *)
Inductive Event :=
| ReadEnviron                 (* a call of [os.Environ] *)
| Stdout (s : string)         (* [fmt.Printf] *)
| Stderr (s : string)         (* [fmt.Fprintf(os.Stderr, ...)] *)
| Do (req : Request).         (* [client.Do]: the request leaves the process *)

(** The package-level variables bound to the flags. *)
Record Config := {
  headers : list string;
  transform : string;
  requestMethod : string
}.

(** [init]: the flags registered on [rootCmd], with their defaults. *)
Inductive Flag :=
| StringArrayVar (default : list string)
| StringVar (default : string).

Definition init : list (string * Flag) :=
  [ ("header", StringArrayVar []);
    ("transform", StringVar "");
    ("request", StringVar "POST") ].

Definition flag_registered (name : string) : bool :=
  bool_decide (name ∈ (init).*1).

Definition default_config : Config :=
  {| headers := []; transform := ""; requestMethod := "POST" |}.

(** What [bufio.Scanner] delivers from standard input: the lines that
    [Scan] yields, then what [Err] reports (nothing at end of input). *)
Record Stdin := {
  stdin_lines : list string;
  stdin_err : option error
}.

Section Program.
Context `{RT : Runtime}.

Record State := {
  st_world : world;
  st_trace : list Event
}.

Definition emit (e : Event) (st : State) : State :=
  {| st_world := st_world st; st_trace := st_trace st ++ [e] |}.

(** [h.Set(key, value)]: the entry under the canonical key is replaced. *)
Definition Header_Set (h : Header) (key val : string) : Header :=
  <[CanonicalMIMEHeaderKey key := [val]]> h.

(** [http.NewRequest(method, url, body)]; an empty method means GET. *)
Definition http_NewRequest (method url body : string) : result Request :=
  match http_NewRequest_check method url with
  | Some err => Err err
  | None =>
      Ok {| Method := if decide (method = "") then "GET" else method;
            URL := url;
            ReqHeader := ∅;
            Body := body |}
  end.

Definition evaluateExpression (expression : string) (ctx : Bindings value)
  : result value :=
  match expr_Compile expression ctx with
  | Err err => Err err
  | Ok prog => expr_Run prog ctx
  end.

(** The body of the loop of [getEnvMap], on one entry. *)
Definition envMap_add (envMap : gmap string string) (e : string)
  : gmap string string :=
  match strings.SplitN e "=" 2 with
  | [k; v] => <[k := v]> envMap
  | _ => envMap
  end.

Definition envMap_of (environ : list string) : gmap string string :=
  foldl envMap_add ∅ environ.

Definition getEnvMap (st : State) : gmap string string * State :=
  (envMap_of (os_Environ (st_world st)), emit ReadEnviron st).

(** The loop over [headers] of [processLine] (lines 117-131). *)
Fixpoint addHeaders (hs : list string) (ctx : Bindings value) (h : Header)
  : result Header :=
  match hs with
  | [] => Ok h
  | header :: rest =>
      match evaluateExpression header ctx with
      | Err err => Err ("evaluating header expression: " +:+ err)
      | Ok headerValue =>
          let headerStr := fmt_v headerValue in
          match strings.SplitN headerStr ":" 2 with
          | [name; val] =>
              addHeaders rest ctx
                (Header_Set h (strings.TrimSpace name) (strings.TrimSpace val))
          | _ => Err ("invalid header format: " +:+ headerStr)
          end
      end
  end.

(** [processLine] from the URL expression to the end of the header loop
    (lines 85-131): everything between binding the context and sending. *)
Definition assemble (cfg : Config) (urlExpr : string) (ctx : Bindings value)
  : result Request :=
  (url <- wrap "evaluating URL expression: " (evaluateExpression urlExpr ctx) ;;
   body <- (if decide (transform cfg = "") then Ok (input ctx)
            else wrap "evaluating transform expression: "
                   (evaluateExpression (transform cfg) ctx)) ;;
   bodyBytes <- wrap "marshaling body: " (json_Marshal body) ;;
   req <- wrap "creating request: "
            (http_NewRequest (requestMethod cfg) (fmt_v url) bodyBytes) ;;
   let h0 := Header_Set (ReqHeader req) "Content-Type" "application/json" in
   h <- addHeaders (headers cfg) ctx h0 ;;
   Ok {| Method := Method req; URL := URL req; ReqHeader := h;
         Body := Body req |})%result.

Definition status_line (resp : Response) : string :=
  "Status: " +:+ Status resp +:+ ", Response: " +:+ RespBody resp +:+ newline.

(** Lines 133-151: send, print the response, classify the status. *)
Definition send (req : Request) (st : State) : option error * State :=
  let '(r, w) := client_Do req (st_world st) in
  let st1 := {| st_world := w; st_trace := st_trace st ++ [Do req] |} in
  match r with
  | Err err => (Some ("sending request: " +:+ err), st1)
  | Ok resp =>
      let st2 := emit (Stdout (status_line resp)) st1 in
      if decide (StatusCode resp >= 400)
      then (Some ("HTTP error: " +:+ Status resp), st2)
      else (None, st2)
  end.

Definition processLine (cfg : Config) (line urlExpr : string) (st : State)
  : option error * State :=
  match json_Unmarshal line with
  | Err err => (Some ("parsing JSON: " +:+ err), st)
  | Ok inp =>
      let '(envMap, st1) := getEnvMap st in
      let ctx := {| input := inp; env := envMap |} in
      match assemble cfg urlExpr ctx with
      | Err err => (Some err, st1)
      | Ok req => send req st1
      end
  end.

(** One iteration of the loop of [run]. *)
Definition step (cfg : Config) (urlExpr : string) (st : State) (line : string)
  : State :=
  if decide (strings.TrimSpace line = "") then st
  else
    match processLine cfg line urlExpr st with
    | (Some err, st') =>
        emit (Stderr ("Error processing line: " +:+ err +:+ newline)) st'
    | (None, st') => st'
    end.

Definition scan_loop (cfg : Config) (urlExpr : string) (ls : list string)
  (st : State) : State :=
  foldl (step cfg urlExpr) st ls.

(** [run]: [Some 1] when it ends in [os.Exit(1)], [None] when it returns. *)
Definition run (cfg : Config) (urlExpr : string) (stdin : Stdin) (st : State)
  : option Z * State :=
  let st' := scan_loop cfg urlExpr (stdin_lines stdin) st in
  match stdin_err stdin with
  | Some err =>
      (Some 1, emit (Stderr ("Error reading stdin: " +:+ err +:+ newline)) st')
  | None => (None, st')
  end.

(** The exit status of the process once the flags are parsed: [main]
    returns (status 0) when [run] returns. *)
Definition exit_status (cfg : Config) (urlExpr : string) (stdin : Stdin)
  (st : State) : Z :=
  default 0 (run cfg urlExpr stdin st).1.

Definition start (w : world) : State := {| st_world := w; st_trace := [] |}.

(** Observations on a trace. *)
Definition env_reads (t : list Event) : nat :=
  length (omap (fun e => match e with ReadEnviron => Some tt | _ => None end) t).

Definition requests (t : list Event) : list Request :=
  omap (fun e => match e with Do req => Some req | _ => None end) t.

Definition stdout (t : list Event) : list string :=
  omap (fun e => match e with Stdout s => Some s | _ => None end) t.

Definition stderr (t : list Event) : list string :=
  omap (fun e => match e with Stderr s => Some s | _ => None end) t.

End Program.

(** ** Vocabulary of the properties *)

Section Vocabulary.
Context `{RT : Runtime}.

(** What a call adds to the trace. *)
Definition new_events (st st' : State) : list Event :=
  drop (length (st_trace st)) (st_trace st').

(** The requests that [processLine] sends for a line. *)
Definition sent (cfg : Config) (line urlExpr : string) (st : State)
  : list Request :=
  requests (new_events st (processLine cfg line urlExpr st).2).

(** The context that [processLine] binds for a decoded record. *)
Definition bind_context (inp : value) (st : State) : Bindings value :=
  {| input := inp; env := envMap_of (os_Environ (st_world st)) |}.

(** The events of one call of [processLine], in order. *)
Definition line_events_spec (cfg : Config) (line urlExpr : string)
  (st : State) : list Event :=
  match json_Unmarshal line with
  | Err _ => []
  | Ok inp =>
      ReadEnviron ::
      match assemble cfg urlExpr (bind_context inp st) with
      | Err _ => []
      | Ok req =>
          Do req ::
          match (client_Do req (st_world st)).1 with
          | Ok resp => [Stdout (status_line resp)]
          | Err _ => []
          end
      end
  end.

(** The lines for which [run] reaches [getEnvMap]: not blank, and JSON. *)
Definition decoded (line : string) : bool :=
  bool_decide (strings.TrimSpace line <> "")
  && match json_Unmarshal line with Ok _ => true | Err _ => false end.

(** [t] is [s] without the white space at its ends. *)
Definition trims_to (s t : string) : Prop :=
  exists a b, strings.blank a /\ strings.blank b /\ s = a +:+ t +:+ b
              /\ strings.leading_space t = false
              /\ strings.trailing_space t = false.

(** A header expression yields the name and value [p]: its text is cut
    at the first colon and both sides are trimmed. *)
Definition parsed_header (ctx : Bindings value) (header : string)
  (p : string * string) : Prop :=
  exists v name val,
    evaluateExpression header ctx = Ok v
    /\ fmt_v v = name +:+ ":" +:+ val
    /\ strings.Contains name ":" = false
    /\ p = (strings.TrimSpace name, strings.TrimSpace val).

(** The configuration with other header expressions. *)
Definition with_headers (cfg : Config) (hs : list string) : Config :=
  {| headers := hs; transform := transform cfg;
     requestMethod := requestMethod cfg |}.

Definition set_all (h0 : Header) (pairs : list (string * string)) : Header :=
  foldl (fun h p => Header_Set h p.1 p.2) h0 pairs.

(** The value of the last pair whose name has the canonical key [k]. *)
Definition last_value (k : string) (pairs : list (string * string))
  : option string :=
  foldl (fun acc p => if decide (CanonicalMIMEHeaderKey p.1 = k)
                      then Some p.2 else acc) None pairs.

(** How the errors of [processLine] start, one text per failing phase. *)
Definition phases : list string :=
  [ "parsing JSON: ";
    "evaluating URL expression: ";
    "evaluating transform expression: ";
    "marshaling body: ";
    "creating request: ";
    "evaluating header expression: ";
    "invalid header format: ";
    "sending request: ";
    "HTTP error: " ].

Definition error_line (err : error) : string :=
  "Error processing line: " +:+ err +:+ newline.

End Vocabulary.

(** ** Vocabulary for the environment map and for whole runs *)

(** The key that [getEnvMap] files an entry of [os.Environ] under: what
    stands before its first equals sign; none for an entry without one. *)
Definition entry_key (e : string) : option string :=
  match strings.SplitN e "=" 2 with
  | [k; _] => Some k
  | _ => None
  end.

(** The lines that the loop of [run] hands to [processLine]. *)
Definition nonblank (line : string) : bool :=
  bool_decide (strings.TrimSpace line <> "").

Section RunVocabulary.
Context `{RT : Runtime}.

(** What the loop of [run] adds to the trace over the lines [ls]. *)
Definition loop_events (cfg : Config) (urlExpr : string) (ls : list string)
  (st : State) : list Event :=
  new_events st (scan_loop cfg urlExpr ls st).

(** What one iteration of the loop adds to the trace. *)
Definition step_events (cfg : Config) (urlExpr : string) (st : State)
  (line : string) : list Event :=
  new_events st (step cfg urlExpr st line).

(** The six ways one iteration of the loop can go, with what each one
    adds to the trace. *)
Inductive step_shape (cfg : Config) (urlExpr : string) (st : State)
  (line : string) : list Event -> Prop :=
| shape_blank :
    nonblank line = false ->
    step_shape cfg urlExpr st line []
| shape_decode e :
    nonblank line = true ->
    json_Unmarshal line = Err e ->
    step_shape cfg urlExpr st line
      [Stderr (error_line ("parsing JSON: " +:+ e))]
| shape_assemble inp e :
    nonblank line = true ->
    json_Unmarshal line = Ok inp ->
    assemble cfg urlExpr (bind_context inp st) = Err e ->
    step_shape cfg urlExpr st line [ReadEnviron; Stderr (error_line e)]
| shape_send inp req e :
    nonblank line = true ->
    json_Unmarshal line = Ok inp ->
    assemble cfg urlExpr (bind_context inp st) = Ok req ->
    (client_Do req (st_world st)).1 = Err e ->
    step_shape cfg urlExpr st line
      [ReadEnviron; Do req; Stderr (error_line ("sending request: " +:+ e))]
| shape_status inp req resp :
    nonblank line = true ->
    json_Unmarshal line = Ok inp ->
    assemble cfg urlExpr (bind_context inp st) = Ok req ->
    (client_Do req (st_world st)).1 = Ok resp ->
    StatusCode resp >= 400 ->
    step_shape cfg urlExpr st line
      [ReadEnviron; Do req; Stdout (status_line resp);
       Stderr (error_line ("HTTP error: " +:+ Status resp))]
| shape_ok inp req resp :
    nonblank line = true ->
    json_Unmarshal line = Ok inp ->
    assemble cfg urlExpr (bind_context inp st) = Ok req ->
    (client_Do req (st_world st)).1 = Ok resp ->
    StatusCode resp < 400 ->
    step_shape cfg urlExpr st line
      [ReadEnviron; Do req; Stdout (status_line resp)].

(** The value that becomes the body: the record, or with a transform
    expression its value. *)
Definition request_body (cfg : Config) (ctx : Bindings value) (body : value)
  : Prop :=
  (transform cfg = "" /\ body = input ctx)
  \/ (transform cfg <> ""
      /\ evaluateExpression (transform cfg) ctx = Ok body).

(** The error of a line: the text of the first phase that fails on it,
    followed by the cause of the failure. *)
Inductive line_error (cfg : Config) (line urlExpr : string) (st : State)
  : error -> Prop :=
| failed_decode e :
    json_Unmarshal line = Err e ->
    line_error cfg line urlExpr st ("parsing JSON: " +:+ e)
| failed_url inp e :
    json_Unmarshal line = Ok inp ->
    evaluateExpression urlExpr (bind_context inp st) = Err e ->
    line_error cfg line urlExpr st ("evaluating URL expression: " +:+ e)
| failed_transform inp url e :
    json_Unmarshal line = Ok inp ->
    evaluateExpression urlExpr (bind_context inp st) = Ok url ->
    transform cfg <> "" ->
    evaluateExpression (transform cfg) (bind_context inp st) = Err e ->
    line_error cfg line urlExpr st ("evaluating transform expression: " +:+ e)
| failed_marshal inp url body e :
    json_Unmarshal line = Ok inp ->
    evaluateExpression urlExpr (bind_context inp st) = Ok url ->
    request_body cfg (bind_context inp st) body ->
    json_Marshal body = Err e ->
    line_error cfg line urlExpr st ("marshaling body: " +:+ e)
| failed_create inp url body bytes e :
    json_Unmarshal line = Ok inp ->
    evaluateExpression urlExpr (bind_context inp st) = Ok url ->
    request_body cfg (bind_context inp st) body ->
    json_Marshal body = Ok bytes ->
    http_NewRequest_check (requestMethod cfg) (fmt_v url) = Some e ->
    line_error cfg line urlExpr st ("creating request: " +:+ e)
| failed_header_eval inp url body bytes pre header rest pairs e :
    json_Unmarshal line = Ok inp ->
    evaluateExpression urlExpr (bind_context inp st) = Ok url ->
    request_body cfg (bind_context inp st) body ->
    json_Marshal body = Ok bytes ->
    http_NewRequest_check (requestMethod cfg) (fmt_v url) = None ->
    headers cfg = pre ++ header :: rest ->
    Forall2 (parsed_header (bind_context inp st)) pre pairs ->
    evaluateExpression header (bind_context inp st) = Err e ->
    line_error cfg line urlExpr st ("evaluating header expression: " +:+ e)
| failed_header_format inp url body bytes pre header rest pairs v :
    json_Unmarshal line = Ok inp ->
    evaluateExpression urlExpr (bind_context inp st) = Ok url ->
    request_body cfg (bind_context inp st) body ->
    json_Marshal body = Ok bytes ->
    http_NewRequest_check (requestMethod cfg) (fmt_v url) = None ->
    headers cfg = pre ++ header :: rest ->
    Forall2 (parsed_header (bind_context inp st)) pre pairs ->
    evaluateExpression header (bind_context inp st) = Ok v ->
    strings.Contains (fmt_v v) ":" = false ->
    line_error cfg line urlExpr st ("invalid header format: " +:+ fmt_v v)
| failed_send inp req e :
    json_Unmarshal line = Ok inp ->
    assemble cfg urlExpr (bind_context inp st) = Ok req ->
    (client_Do req (st_world st)).1 = Err e ->
    line_error cfg line urlExpr st ("sending request: " +:+ e)
| failed_status inp req resp :
    json_Unmarshal line = Ok inp ->
    assemble cfg urlExpr (bind_context inp st) = Ok req ->
    (client_Do req (st_world st)).1 = Ok resp ->
    StatusCode resp >= 400 ->
    line_error cfg line urlExpr st ("HTTP error: " +:+ Status resp).

(** The keys under which the pairs of the header expressions are set. *)
Definition header_keys (pairs : list (string * string)) : list string :=
  (fun p => CanonicalMIMEHeaderKey p.1) <$> pairs.

End RunVocabulary.

(** ** A runtime to run the examples of the README on

    Dynamic values are JSON trees; the decoder and the expression compiler
    know the lines and the expressions of the examples and nothing else
    (every other text is an error to them, with a short text in place of
    the one the library gives); the encoder, the [%v] printer, the
    expression interpreter and the header-key canonicalisation are written
    out for these trees; the HTTP peer answers from a list of prepared
    replies.  The theorems do not depend on it: they hold for every
    [Runtime]. *)

Module Scenario.

#[local] Unset Elimination Schemes.
Inductive jv :=
| JNull
| JNum (n : Z)
| JStr (s : string)
| JObj (fields : list (string * jv)).
#[local] Set Elimination Schemes.

Definition dq : string := String (ascii_of_N 34) EmptyString.
Definition qt (s : string) : string := dq +:+ s +:+ dq.

Fixpoint join (sep : string) (l : list string) : string :=
  match l with
  | [] => ""
  | [x] => x
  | x :: l' => x +:+ sep +:+ join sep l'
  end.

(** Fields in the order of their keys, as [json.Marshal] and the [%v]
    verb write the entries of a map. *)
Fixpoint insert_by_key (kv : string * string) (l : list (string * string))
  : list (string * string) :=
  match l with
  | [] => [kv]
  | kv' :: l' =>
      if String.leb kv.1 kv'.1 then kv :: l else kv' :: insert_by_key kv l'
  end.

Definition sort_by_key (l : list (string * string)) : list (string * string) :=
  foldr insert_by_key [] l.

Fixpoint encode (v : jv) : string :=
  match v with
  | JNull => "null"
  | JNum n => pretty n
  | JStr s => qt s
  | JObj fields =>
      "{" +:+ join ","
                (map (fun kv => qt kv.1 +:+ ":" +:+ kv.2)
                   (sort_by_key
                      (map (fun kv => let (k, x) := kv : string * jv in
                                      (k, encode x)) fields)))
          +:+ "}"
  end.

(** Input lines. *)
Definition line_hello : string := "{" +:+ qt "message" +:+ ": " +:+ qt "hello" +:+ "}".
Definition line_id : string := "{" +:+ qt "id" +:+ ": 123}".
Definition line_queue : string :=
  "{" +:+ qt "queue" +:+ ":" +:+ qt "urgent" +:+ "," +:+ qt "id" +:+ ":123}".
Definition line_test : string := "{" +:+ qt "test" +:+ ": " +:+ qt "data" +:+ "}".
Definition line_bad : string := "{bad".

Definition decode_table : list (string * jv) :=
  [ (line_hello, JObj [("message", JStr "hello")]);
    (line_id, JObj [("id", JNum 123)]);
    (line_queue, JObj [("queue", JStr "urgent"); ("id", JNum 123)]);
    (line_test, JObj [("test", JStr "data")]) ].

Fixpoint lookup_table {A} (t : list (string * A)) (k : string) : option A :=
  match t with
  | [] => None
  | (k', v) :: t' => if decide (k' = k) then Some v else lookup_table t' k
  end.

Definition decode (line : string) : result jv :=
  match lookup_table decode_table line with
  | Some v => Ok v
  | None => Err "invalid character"
  end.

(** Expressions. *)
Inductive ex :=
| Lit (s : string)
| Input
| InputField (f : string)
| EnvVar (name : string)
| Concat (a b : ex)
| Obj (key : string) (e : ex).

Definition url_xy : string := qt "http://x/y".
Definition url_test : string := qt "http://localhost:8080/test".
Definition url_queue : string := qt "http://h/p?queue=" +:+ " + input.queue".
Definition transform_data : string := "{data: input}".
Definition transform_wrapped : string := "{wrapped: input}".
Definition header_auth : string := qt "Authorization: Bearer " +:+ " + env.TOKEN".
Definition header_json : string := qt "Content-Type: application/json".
Definition header_plain : string := qt "content-type :  text/plain ".
Definition header_trace1 : string := qt "X-Trace: one".
Definition header_trace2 : string := qt "x-trace: two".
Definition header_nocolon : string := qt "Authorization Bearer".
Definition expr_broken : string := "input +".

Definition compile_table : list (string * ex) :=
  [ (url_xy, Lit "http://x/y");
    (url_test, Lit "http://localhost:8080/test");
    (url_queue, Concat (Lit "http://h/p?queue=") (InputField "queue"));
    (transform_data, Obj "data" Input);
    (transform_wrapped, Obj "wrapped" Input);
    (header_auth, Concat (Lit "Authorization: Bearer ") (EnvVar "TOKEN"));
    (header_json, Lit "Content-Type: application/json");
    (header_plain, Lit "content-type :  text/plain ");
    (header_trace1, Lit "X-Trace: one");
    (header_trace2, Lit "x-trace: two");
    (header_nocolon, Lit "Authorization Bearer") ].

Definition compile (e : string) (_ : Bindings jv) : result ex :=
  match lookup_table compile_table e with
  | Some p => Ok p
  | None => Err "unexpected token"
  end.

Fixpoint eval (p : ex) (ctx : Bindings jv) : result jv :=
  match p with
  | Lit s => Ok (JStr s)
  | Input => Ok (input ctx)
  | InputField f =>
      match input ctx with
      | JObj fields => Ok (default JNull (lookup_table fields f))
      | _ => Err ("cannot fetch " +:+ f)
      end
  | EnvVar name => Ok (JStr (default "" (env ctx !! name)))
  | Concat a b =>
      match eval a ctx, eval b ctx with
      | Ok (JStr x), Ok (JStr y) => Ok (JStr (x +:+ y))
      | Err e, _ => Err e
      | _, Err e => Err e
      | _, _ => Err "invalid operation: +"
      end
  | Obj key e =>
      match eval e ctx with
      | Ok v => Ok (JObj [(key, v)])
      | Err err => Err err
      end
  end.

Fixpoint sprint (v : jv) : string :=
  match v with
  | JNull => "<nil>"
  | JNum n => pretty n
  | JStr s => s
  | JObj fields =>
      "map[" +:+ join " "
                   (map (fun kv => kv.1 +:+ ":" +:+ kv.2)
                      (sort_by_key
                         (map (fun kv => let (k, x) := kv : string * jv in
                                         (k, sprint x)) fields)))
             +:+ "]"
  end.

(** Header keys: a key made of token bytes only gets an upper-case
    letter first and after each hyphen and lower-case letters elsewhere;
    any other key is left as it is. *)
Definition token_byte (c : ascii) : bool :=
  let n := N_of_ascii c in
  ((48 <=? n) && (n <=? 57) || (65 <=? n) && (n <=? 90)
   || (97 <=? n) && (n <=? 122)
   || bool_decide (n ∈ [33; 35; 36; 37; 38; 39; 42; 43; 45; 46; 94; 95; 96; 124; 126]))%N.

Fixpoint canon_go (upper : bool) (s : list ascii) : list ascii :=
  match s with
  | [] => []
  | c :: s' =>
      let n := N_of_ascii c in
      let c' :=
        (if upper && (97 <=? n) && (n <=? 122) then ascii_of_N (n - 32)
         else if negb upper && (65 <=? n) && (n <=? 90) then ascii_of_N (n + 32)
         else c)%N in
      c' :: canon_go (Ascii.eqb c' (ascii_of_N 45)) s'
  end.

Definition canonical (s : string) : string :=
  let b := strings.to_bytes s in
  if forallb token_byte b then strings.of_bytes (canon_go true b) else s.

(** The checks of [http.NewRequest]: the method, GET when empty, is made
    of token bytes; of the URL only the control bytes are checked here. *)
Definition control_byte (c : ascii) : bool :=
  let n := N_of_ascii c in ((n <? 32) || (n =? 127))%N.

Definition request_check (method url : string) : option error :=
  let m := if decide (method = "") then "GET" else method in
  if negb (forallb token_byte (strings.to_bytes m))
  then Some ("net/http: invalid method " +:+ qt m)
  else if existsb control_byte (strings.to_bytes url)
  then Some "net/url: invalid control character in URL"
  else None.

Record World := {
  environ : list string;
  replies : list (result Response)
}.

Definition roundtrip (req : Request) (w : World) : result Response * World :=
  match replies w with
  | r :: rs => (r, {| environ := environ w; replies := rs |})
  | [] => (Err "connection refused", w)
  end.

#[export] Instance runtime : Runtime := {|
  value := jv;
  program := ex;
  world := World;
  json_Unmarshal := decode;
  json_Marshal := fun v => Ok (encode v);
  expr_Compile := compile;
  expr_Run := eval;
  fmt_v := sprint;
  http_NewRequest_check := request_check;
  CanonicalMIMEHeaderKey := canonical;
  os_Environ := environ;
  client_Do := roundtrip
|}.

Definition ok_200 (body : string) : result Response :=
  Ok {| Status := "200 OK"; StatusCode := 200; RespBody := body |}.
Definition resp_404 : Response :=
  {| Status := "404 Not Found"; StatusCode := 404; RespBody := "nothing here" |}.

Definition w0 : World :=
  {| environ := ["TOKEN=abc123"; "HOME=/root"; "malformed"];
     replies := [ok_200 "first"; Ok resp_404; ok_200 "third"] |}.

Definition w404 : World :=
  {| environ := ["TOKEN=abc123"]; replies := [Ok resp_404; ok_200 "next"] |}.

Definition post (hs : list string) (tr : string) : Config :=
  {| headers := hs; transform := tr; requestMethod := "POST" |}.

Definition st0 : State := start w0.
Definition st404 : State := start w404.

Definition plain : Config := post [] "".
Definition hello : jv := JObj [("message", JStr "hello")].

(** A line of white space: two spaces, a tab, U+00A0 and U+2003. *)
Definition line_blank : string :=
  strings.of_bytes (Bytes.of_codes [32; 32; 9; 194; 160; 226; 128; 131]%N).

(** The requests the examples are expected to send. *)
Definition json_header : Header := {[ "Content-Type" := ["application/json"] ]}.

Definition body_hello : string := "{" +:+ qt "message" +:+ ":" +:+ qt "hello" +:+ "}".

Definition req_hello : Request :=
  {| Method := "POST"; URL := "http://x/y"; ReqHeader := json_header;
     Body := body_hello |}.

Definition req_trace : Request :=
  {| Method := "POST"; URL := "http://x/y";
     ReqHeader := <["X-Trace" := ["two"]]>
                    (<["Authorization" := ["Bearer abc123"]]> json_header);
     Body := body_hello |}.

Definition req_plain : Request :=
  {| Method := "POST"; URL := "http://x/y";
     ReqHeader := {[ "Content-Type" := ["text/plain"] ]};
     Body := "{" +:+ qt "data" +:+ ":" +:+ body_hello +:+ "}" |}.

Definition req_dry : Request :=
  {| Method := "POST"; URL := "http://localhost:8080/test";
     ReqHeader := json_header;
     Body := "{" +:+ qt "wrapped" +:+ ":{" +:+ qt "test" +:+ ":"
               +:+ qt "data" +:+ "}}" |}.

(** More inputs for the examples. *)
Definition environ_ex : list string :=
  ["PATH=/bin"; "malformed"; "TOKEN=a=b"; "HOME=/root"].

Definition bad_lines : list string := [line_bad; line_blank; "]"; line_bad].

Definition req_data : Request :=
  {| Method := "POST"; URL := "http://x/y"; ReqHeader := json_header;
     Body := "{" +:+ qt "data" +:+ ":{" +:+ qt "id" +:+ ":123}}" |}.

Definition put (hs : list string) (tr : string) : Config :=
  {| headers := hs; transform := tr; requestMethod := "PUT" |}.

Definition req_put : Request :=
  {| Method := "PUT"; URL := "http://h/p?queue=urgent";
     ReqHeader := json_header;
     Body := "{" +:+ qt "id" +:+ ":123," +:+ qt "queue" +:+ ":"
               +:+ qt "urgent" +:+ "}" |}.

End Scenario.


(** * Properties *)

(** ** Trimming and splitting *)

Section BytesFacts.
Import Bytes.
Implicit Types (p s r a b : bytes) (ps : list bytes).

Lemma strip_prefix_Some p s r : strip_prefix p s = Some r <-> s = p ++ r.
Proof.
  revert s. induction p as [|c p IH]; intros [|d s]; simpl;
    try (split; congruence).
  destruct (Ascii.eqb_spec c d) as [->|Hne].
  - rewrite IH. split; congruence.
  - split; [done|]. intros [=]. done.
Qed.

Lemma strip_prefix_app p r : strip_prefix p (p ++ r) = Some r.
Proof. by apply strip_prefix_Some. Qed.

Lemma strip_any_Some ps s r :
  strip_any ps s = Some r -> exists p, p ∈ ps /\ s = p ++ r.
Proof.
  induction ps as [|q ps IH]; simpl; [done|].
  destruct (strip_prefix q s) as [r'|] eqn:E.
  - intros [= <-]. exists q. split; [left|]. by apply strip_prefix_Some.
  - intros H. destruct (IH H) as (p & ? & ?). exists p. split; [by right|done].
Qed.

Lemma strip_any_nil ps : Forall (fun p => p <> []) ps -> strip_any ps [] = None.
Proof.
  induction 1 as [|p ps Hp _ IH]; [done|]. simpl.
  destruct p; [done|]. exact IH.
Qed.

Lemma runs_app ps a b : runs ps a -> runs ps b -> runs ps (a ++ b).
Proof.
  induction 1 as [|p s Hp _ IH]; intros Hb; [done|].
  rewrite <- app_assoc. constructor; auto.
Qed.

Lemma runs_one ps p : p ∈ ps -> runs ps p.
Proof.
  intros Hp. rewrite <- (app_nil_r p). constructor; [done|constructor].
Qed.

Lemma runs_rev ps a : runs (map (@rev ascii) ps) a -> runs ps (rev a).
Proof.
  induction 1 as [|p s Hp _ IH]; [constructor|].
  rewrite rev_app_distr. apply runs_app; [done|].
  apply list_elem_of_fmap in Hp as (q & -> & Hq).
  rewrite rev_involutive. by apply runs_one.
Qed.

(** What [trim_n] leaves and what it takes, given enough rounds. *)
Lemma trim_n_spec ps n s :
  Forall (fun p => p <> []) ps -> (length s <= n)%nat ->
  exists a, runs ps a /\ s = a ++ trim_n n ps s
            /\ strip_any ps (trim_n n ps s) = None.
Proof.
  intros Hne. revert s. induction n as [|n IH]; intros s Hlen; simpl.
  - destruct s; [|simpl in Hlen; lia].
    exists []. split; [constructor|]. split; [done|]. by apply strip_any_nil.
  - destruct (strip_any ps s) as [r|] eqn:E.
    + destruct (strip_any_Some _ _ _ E) as (p & Hp & ->).
      assert (p <> []) as Hp'.
      { rewrite Forall_forall in Hne. by apply Hne. }
      destruct (IH r) as (a & Ha & Hr & Hnone).
      { rewrite length_app in Hlen. destruct p; [done|]. simpl in Hlen. lia. }
      exists (p ++ a). split; [by constructor|].
      split; [|done]. rewrite <- app_assoc. by rewrite <- Hr.
    + exists []. split; [constructor|]. done.
Qed.

Lemma space_runes_nonempty : Forall (fun p => p <> []) space_runes.
Proof. repeat constructor; done. Qed.

Lemma space_runes_rev_nonempty : Forall (fun p => p <> []) space_runes_rev.
Proof. repeat constructor; done. Qed.

Lemma space_runes_rev_eq : space_runes_rev = map (@rev ascii) space_runes.
Proof. reflexivity. Qed.

(** No white-space encoding starts another one: a string that begins
    with one is stripped of exactly that one. *)
Lemma strip_space_rune p s :
  p ∈ space_runes -> strip_any space_runes (p ++ s) = Some s.
Proof.
  intros Hp. apply list_elem_of_In in Hp. simpl in Hp.
  repeat (destruct Hp as [<-|Hp]; [reflexivity|]). done.
Qed.

Lemma trim_blank n s :
  blank s -> (length s <= n)%nat -> trim_n n space_runes s = [].
Proof.
  intros Hs. revert n. induction Hs as [|p s Hp _ IH]; intros n Hlen.
  - by destruct n.
  - assert (p <> []) as Hp'.
    { pose proof space_runes_nonempty as H. rewrite Forall_forall in H.
      by apply H. }
    rewrite length_app in Hlen.
    destruct n as [|n]; [destruct p; [done|simpl in Hlen; lia]|].
    cbn [trim_n]. rewrite strip_space_rune by done. apply IH.
    destruct p; [done|]. simpl in Hlen. lia.
Qed.

Lemma TrimLeftSpace_spec s :
  exists a, blank a /\ s = a ++ TrimLeftSpace s
            /\ leading_space (TrimLeftSpace s) = false.
Proof.
  destruct (trim_n_spec space_runes (length s) s space_runes_nonempty)
    as (a & Ha & Hs & Hnone); [done|].
  exists a. split; [done|]. split; [done|].
  unfold leading_space, TrimLeftSpace. rewrite Hnone.
  apply bool_decide_eq_false. by intros [? ?].
Qed.

Lemma TrimRightSpace_spec s :
  exists b, blank b /\ s = TrimRightSpace s ++ b
            /\ trailing_space (TrimRightSpace s) = false.
Proof.
  destruct (trim_n_spec space_runes_rev (length s) (rev s)
              space_runes_rev_nonempty) as (b & Hb & Hs & Hnone).
  { by rewrite length_rev. }
  exists (rev b). split.
  { apply runs_rev. by rewrite <- space_runes_rev_eq. }
  split.
  - unfold TrimRightSpace. rewrite <- rev_app_distr, <- Hs.
    by rewrite rev_involutive.
  - unfold trailing_space, TrimRightSpace. rewrite rev_involutive, Hnone.
    apply bool_decide_eq_false. by intros [? ?].
Qed.

Lemma leading_space_app_false s b :
  leading_space (s ++ b) = false -> s <> [] -> leading_space s = false.
Proof.
  unfold leading_space. intros H Hs.
  apply bool_decide_eq_false in H. apply bool_decide_eq_false.
  intros [r Hr]. apply H.
  destruct (strip_any_Some _ _ _ Hr) as (p & Hp & ->).
  rewrite <- app_assoc. rewrite strip_space_rune by done. eauto.
Qed.

Lemma leading_space_nil : leading_space [] = false.
Proof. reflexivity. Qed.

(** [TrimSpace] on bytes: white space is removed at both ends, and the
    result neither starts nor ends with white space. *)
Lemma TrimSpace_bytes_spec s :
  let t := TrimRightSpace (TrimLeftSpace s) in
  exists a b, blank a /\ blank b /\ s = a ++ t ++ b
              /\ leading_space t = false /\ trailing_space t = false.
Proof.
  intros t.
  destruct (TrimLeftSpace_spec s) as (a & Ha & Hs & Hl).
  destruct (TrimRightSpace_spec (TrimLeftSpace s)) as (b & Hb & Ht & Hr).
  fold t in Ht, Hr. exists a, b. repeat split; try done.
  - by rewrite <- Ht.
  - destruct (decide (t = [])) as [->|Hne]; [apply leading_space_nil|].
    rewrite Ht in Hl. by apply leading_space_app_false in Hl.
Qed.

Lemma TrimSpace_bytes_blank s :
  blank s -> TrimRightSpace (TrimLeftSpace s) = [].
Proof.
  intros Hs. unfold TrimLeftSpace. rewrite trim_blank by done. reflexivity.
Qed.

(** Cutting at a one-byte separator. *)
Lemma cut_byte_None c s : cut [c] s = None <-> c ∉ s.
Proof.
  induction s as [|d s IH]; simpl.
  - split; [intros _; apply not_elem_of_nil|done].
  - destruct (Ascii.eqb_spec c d) as [->|Hne].
    + split; [done|]. intros H. exfalso. apply H. left.
    + destruct (cut [c] s) as [[b a]|].
      * split; [done|]. intros H. exfalso.
        assert (c ∉ s) as H' by (intros ?; apply H; by right).
        apply IH in H'. done.
      * split; [|done]. intros _ Hin. apply elem_of_cons in Hin as [?|Hin]; [done|].
        by apply (proj1 IH).
Qed.

Lemma cut_byte_first c b a : c ∉ b -> cut [c] (b ++ c :: a) = Some (b, a).
Proof.
  induction b as [|d b IH]; intros Hb; simpl.
  - by rewrite Ascii.eqb_refl.
  - destruct (Ascii.eqb_spec c d) as [->|Hne].
    + exfalso. apply Hb. left.
    + rewrite IH; [done|]. intros ?. apply Hb. by right.
Qed.

Lemma cut_byte_Some c s b a :
  cut [c] s = Some (b, a) -> s = b ++ c :: a /\ c ∉ b.
Proof.
  revert b a. induction s as [|d l IH]; intros b a; simpl; [done|].
  destruct (Ascii.eqb_spec c d) as [<-|Hne].
  - intros [= <- <-]. split; [done|apply not_elem_of_nil].
  - destruct (cut [c] l) as [[b' a']|]; [|done].
    intros [= <- <-]. destruct (IH b' a' eq_refl) as [-> Hb'].
    split; [done|]. intros Hin.
    apply elem_of_cons in Hin as [Heq|Hin]; [by apply Hne|by apply Hb'].
Qed.

End BytesFacts.

Section StringFacts.
Import strings.
Implicit Types s t name val : string.

Lemma of_to_bytes s : of_bytes (to_bytes s) = s.
Proof. apply String.string_of_list_ascii_of_string. Qed.

Lemma to_of_bytes l : to_bytes (of_bytes l) = l.
Proof. apply String.list_ascii_of_string_of_list_ascii. Qed.

Lemma to_bytes_app s t : to_bytes (s +:+ t) = to_bytes s ++ to_bytes t.
Proof. induction s as [|c s IH]; simpl; [done|]. by rewrite IH. Qed.

Lemma of_bytes_app l k : of_bytes (l ++ k) = of_bytes l +:+ of_bytes k.
Proof. induction l as [|c l IH]; simpl; [done|]. by rewrite IH. Qed.

Lemma to_bytes_inj s t : to_bytes s = to_bytes t -> s = t.
Proof. intros H. rewrite <- (of_to_bytes s), <- (of_to_bytes t). by rewrite H. Qed.

(** [TrimSpace s] is [s] without the white space at its two ends. *)
Lemma TrimSpace_spec s :
  exists a b, blank a /\ blank b /\ s = a +:+ TrimSpace s +:+ b
              /\ leading_space (TrimSpace s) = false
              /\ trailing_space (TrimSpace s) = false.
Proof.
  destruct (TrimSpace_bytes_spec (to_bytes s)) as (a & b & Ha & Hb & Hs & Hl & Hr).
  exists (of_bytes a), (of_bytes b).
  unfold blank, leading_space, trailing_space, TrimSpace.
  rewrite !to_of_bytes. repeat split; try done.
  rewrite <- !of_bytes_app, <- Hs. by rewrite of_to_bytes.
Qed.

Lemma TrimSpace_blank s : blank s -> TrimSpace s = "".
Proof.
  intros H. unfold TrimSpace. by rewrite TrimSpace_bytes_blank.
Qed.

Lemma TrimSpace_empty_blank s : TrimSpace s = "" -> blank s.
Proof.
  intros H. destruct (TrimSpace_spec s) as (a & b & Ha & Hb & Hs & _).
  rewrite H in Hs. simpl in Hs. unfold blank. rewrite Hs, to_bytes_app.
  by apply runs_app.
Qed.

Lemma Contains_byte_false s c :
  Contains s (String c EmptyString) = false <-> c ∉ to_bytes s.
Proof.
  unfold Contains. simpl. rewrite bool_decide_eq_false.
  rewrite <- cut_byte_None. destruct (Bytes.cut [c] (to_bytes s)).
  - split; [intros H; exfalso; apply H; eauto|done].
  - split; [done|]. intros _ [? ?]. done.
Qed.

(** The three outcomes of splitting in two at a colon. *)
Lemma SplitN_colon_first name val :
  Contains name ":" = false ->
  SplitN (name +:+ ":" +:+ val) ":" 2 = [name; val].
Proof.
  intros H. apply Contains_byte_false in H.
  unfold SplitN. rewrite !to_bytes_app. simpl.
  rewrite (cut_byte_first _ _ _ H). simpl. by rewrite !of_to_bytes.
Qed.

Lemma SplitN_no_colon s : Contains s ":" = false -> SplitN s ":" 2 = [s].
Proof.
  intros H. apply Contains_byte_false in H. apply cut_byte_None in H.
  unfold SplitN. simpl in *. rewrite H. simpl. by rewrite of_to_bytes.
Qed.

Lemma SplitN_colon_cases s :
  (Contains s ":" = false /\ SplitN s ":" 2 = [s])
  \/ (exists name val, s = name +:+ ":" +:+ val /\ Contains name ":" = false
                       /\ SplitN s ":" 2 = [name; val]).
Proof.
  destruct (Contains s ":") eqn:E.
  - right. unfold Contains in E. apply bool_decide_eq_true in E as [[b a] E].
    apply (cut_byte_Some ":"%char) in E as [Hs Hb].
    exists (of_bytes b), (of_bytes a).
    assert (s = of_bytes b +:+ ":" +:+ of_bytes a) as Heq.
    { apply to_bytes_inj. by rewrite !to_bytes_app, !to_of_bytes. }
    assert (Contains (of_bytes b) ":" = false) as Hc.
    { apply Contains_byte_false. by rewrite to_of_bytes. }
    split; [done|]. split; [done|].
    rewrite Heq at 1. by apply SplitN_colon_first.
  - left. split; [done|]. by apply SplitN_no_colon.
Qed.

End StringFacts.

(** ** The pipeline of [processLine] *)

Section ProgramFacts.
Context `{RT : Runtime}.
Implicit Types (cfg : Config) (st : State) (ctx : Bindings value)
  (h : Header) (pairs : list (string * string)).

Lemma new_events_app st w t :
  new_events st {| st_world := w; st_trace := st_trace st ++ t |} = t.
Proof. unfold new_events. simpl. by rewrite drop_app_length. Qed.

Lemma new_events_refl st : new_events st st = [].
Proof. unfold new_events. by rewrite drop_all. Qed.

Lemma processLine_unfold cfg line urlExpr st :
  processLine cfg line urlExpr st =
    match json_Unmarshal line with
    | Err err => (Some ("parsing JSON: " +:+ err), st)
    | Ok inp =>
        match assemble cfg urlExpr (bind_context inp st) with
        | Err err => (Some err, emit ReadEnviron st)
        | Ok req => send req (emit ReadEnviron st)
        end
    end.
Proof. reflexivity. Qed.

(** What sending does, by the reply of the peer. *)
Lemma send_unfold req st :
  send req st =
    let r := client_Do req (st_world st) in
    match r.1 with
    | Err err =>
        (Some ("sending request: " +:+ err),
         {| st_world := r.2; st_trace := st_trace st ++ [Do req] |})
    | Ok resp =>
        (if decide (StatusCode resp >= 400)
         then Some ("HTTP error: " +:+ Status resp) else None,
         {| st_world := r.2;
            st_trace := st_trace st ++ [Do req; Stdout (status_line resp)] |})
    end.
Proof.
  unfold send. destruct (client_Do req (st_world st)) as [[resp|err] w]; simpl.
  - unfold emit. simpl. rewrite <- app_assoc. simpl. by destruct (decide _).
  - done.
Qed.

Lemma processLine_trace cfg line urlExpr st :
  st_trace (processLine cfg line urlExpr st).2
  = st_trace st ++ line_events_spec cfg line urlExpr st.
Proof.
  rewrite processLine_unfold. unfold line_events_spec.
  destruct (json_Unmarshal line) as [inp|err]; simpl; [|by rewrite app_nil_r].
  destruct (assemble cfg urlExpr (bind_context inp st)) as [req|err]; simpl; [|done].
  rewrite send_unfold. simpl.
  destruct (client_Do req (st_world st)).1 as [resp|err]; simpl;
    by rewrite <- app_assoc.
Qed.

Lemma processLine_new_events cfg line urlExpr st :
  new_events st (processLine cfg line urlExpr st).2
  = line_events_spec cfg line urlExpr st.
Proof.
  unfold new_events. rewrite processLine_trace. by rewrite drop_app_length.
Qed.

Lemma sent_spec cfg line urlExpr st :
  sent cfg line urlExpr st =
    match json_Unmarshal line with
    | Err _ => []
    | Ok inp =>
        match assemble cfg urlExpr (bind_context inp st) with
        | Err _ => []
        | Ok req => [req]
        end
    end.
Proof.
  unfold sent. rewrite processLine_new_events. unfold line_events_spec.
  destruct (json_Unmarshal line) as [inp|err]; [|done]. simpl.
  destruct (assemble cfg urlExpr (bind_context inp st)) as [req|err]; [|done].
  simpl. by destruct (client_Do req (st_world st)).1.
Qed.

(** The steps of [assemble], read back from a success. *)
Lemma assemble_Ok cfg urlExpr ctx req :
  assemble cfg urlExpr ctx = Ok req ->
  exists url body,
    evaluateExpression urlExpr ctx = Ok url
    /\ (if decide (transform cfg = "") then body = input ctx
        else evaluateExpression (transform cfg) ctx = Ok body)
    /\ json_Marshal body = Ok (Body req)
    /\ http_NewRequest_check (requestMethod cfg) (fmt_v url) = None
    /\ Method req = (if decide (requestMethod cfg = "") then "GET"
                     else requestMethod cfg)
    /\ URL req = fmt_v url
    /\ addHeaders (headers cfg) ctx
         (Header_Set ∅ "Content-Type" "application/json") = Ok (ReqHeader req).
Proof.
  unfold assemble, result_bind, wrap, http_NewRequest.
  destruct (evaluateExpression urlExpr ctx) as [url|?]; [|done].
  destruct (decide (transform cfg = "")) as [Ht|Ht].
  - destruct (json_Marshal (input ctx)) as [bytes|?] eqn:Hm; [|done].
    destruct (http_NewRequest_check _ _) eqn:Hc; [done|]. simpl.
    destruct (addHeaders _ _ _) as [h|?] eqn:Hh; [|done].
    intros [= <-]. exists url, (input ctx). simpl.
    destruct (decide (transform cfg = "")); [|done]. by repeat split.
  - destruct (evaluateExpression (transform cfg) ctx) as [body|?] eqn:Hb; [|done].
    destruct (json_Marshal body) as [bytes|?] eqn:Hm; [|done].
    destruct (http_NewRequest_check _ _) eqn:Hc; [done|]. simpl.
    destruct (addHeaders _ _ _) as [h|?] eqn:Hh; [|done].
    intros [= <-]. exists url, body. simpl.
    destruct (decide (transform cfg = "")); [done|]. by repeat split.
Qed.

Lemma addHeaders_Err hs ctx h err :
  addHeaders hs ctx h = Err err ->
  exists cause, err = "evaluating header expression: " +:+ cause
                \/ err = "invalid header format: " +:+ cause.
Proof.
  revert h. induction hs as [|header rest IH]; intros h; simpl; [done|].
  destruct (evaluateExpression header ctx) as [v|e].
  - destruct (strings.SplitN (fmt_v v) ":" 2) as [|name [|val [|? ?]]];
      try (intros [= <-]; eauto).
    apply IH.
  - intros [= <-]. eauto.
Qed.

Lemma assemble_Err cfg urlExpr ctx err :
  assemble cfg urlExpr ctx = Err err ->
  exists phase cause, phase ∈ phases /\ err = phase +:+ cause.
Proof.
  unfold assemble, result_bind, wrap, http_NewRequest, phases.
  destruct (evaluateExpression urlExpr ctx) as [url|e].
  2:{ intros [= <-]. eexists _, e. split; [|done]. set_solver. }
  destruct (decide (transform cfg = "")) as [Ht|Ht].
  - destruct (json_Marshal (input ctx)) as [bytes|e].
    2:{ intros [= <-]. eexists _, e. split; [|done]. set_solver. }
    destruct (http_NewRequest_check _ _) as [e|].
    { intros [= <-]. eexists _, e. split; [|done]. set_solver. }
    simpl. destruct (addHeaders _ _ _) as [h|e] eqn:Hh; [done|].
    intros [= <-]. apply addHeaders_Err in Hh as (cause & [->| ->]);
      eexists _, cause; (split; [|done]); set_solver.
  - destruct (evaluateExpression (transform cfg) ctx) as [body|e].
    2:{ intros [= <-]. eexists _, e. split; [|done]. set_solver. }
    destruct (json_Marshal body) as [bytes|e].
    2:{ intros [= <-]. eexists _, e. split; [|done]. set_solver. }
    destruct (http_NewRequest_check _ _) as [e|].
    { intros [= <-]. eexists _, e. split; [|done]. set_solver. }
    simpl. destruct (addHeaders _ _ _) as [h|e] eqn:Hh; [done|].
    intros [= <-]. apply addHeaders_Err in Hh as (cause & [->| ->]);
      eexists _, cause; (split; [|done]); set_solver.
Qed.

End ProgramFacts.

(** ** The header loop *)

Section HeaderFacts.
Context `{RT : Runtime}.
Implicit Types (ctx : Bindings value) (h : Header)
  (pairs : list (string * string)).

(** One round of the loop on a header whose text has a colon. *)
Lemma addHeaders_colon header rest ctx h v name val :
  evaluateExpression header ctx = Ok v ->
  fmt_v v = name +:+ ":" +:+ val ->
  strings.Contains name ":" = false ->
  addHeaders (header :: rest) ctx h
  = addHeaders rest ctx
      (Header_Set h (strings.TrimSpace name) (strings.TrimSpace val)).
Proof.
  intros Hv Hs Hc. simpl. rewrite Hv, Hs.
  by rewrite SplitN_colon_first.
Qed.

(** One round of the loop on a header whose text has no colon. *)
Lemma addHeaders_no_colon header rest ctx h v :
  evaluateExpression header ctx = Ok v ->
  strings.Contains (fmt_v v) ":" = false ->
  addHeaders (header :: rest) ctx h
  = Err ("invalid header format: " +:+ fmt_v v).
Proof.
  intros Hv Hc. simpl. rewrite Hv. by rewrite SplitN_no_colon.
Qed.

Lemma addHeaders_app hs1 hs2 ctx h :
  addHeaders (hs1 ++ hs2) ctx h
  = result_bind (addHeaders hs1 ctx h) (addHeaders hs2 ctx).
Proof.
  revert h. induction hs1 as [|header rest IH]; intros h; simpl; [done|].
  destruct (evaluateExpression header ctx) as [v|e]; [|done].
  destruct (strings.SplitN (fmt_v v) ":" 2) as [|name [|val [|? ?]]]; auto.
Qed.

(** A header without a colon anywhere in the list makes the loop fail. *)
Lemma addHeaders_member_no_colon hs header ctx h v :
  header ∈ hs ->
  evaluateExpression header ctx = Ok v ->
  strings.Contains (fmt_v v) ":" = false ->
  exists err, addHeaders hs ctx h = Err err.
Proof.
  intros Hin Hv Hc. revert h.
  induction hs as [|header' rest IH]; intros h; [by apply elem_of_nil in Hin|].
  apply elem_of_cons in Hin as [<-|Hin].
  - rewrite (addHeaders_no_colon _ _ _ _ _ Hv Hc). eauto.
  - simpl. destruct (evaluateExpression header' ctx) as [v'|e]; [|eauto].
    destruct (strings.SplitN (fmt_v v') ":" 2) as [|name [|val [|? ?]]]; eauto.
Qed.

(** A successful loop has set, in order, the pair of every header. *)
Lemma addHeaders_Ok hs ctx h0 h :
  addHeaders hs ctx h0 = Ok h ->
  exists pairs, Forall2 (parsed_header ctx) hs pairs /\ h = set_all h0 pairs.
Proof.
  revert h0. induction hs as [|header rest IH]; intros h0; simpl.
  - intros [= <-]. exists []. split; [constructor|done].
  - destruct (evaluateExpression header ctx) as [v|e] eqn:Hv; [|done].
    destruct (SplitN_colon_cases (fmt_v v))
      as [[Hc Hs]|(name & val & Heq & Hc & Hs)]; rewrite Hs; [done|].
    intros H. destruct (IH _ H) as (pairs & Hall & ->).
    exists ((strings.TrimSpace name, strings.TrimSpace val) :: pairs).
    split; [|done]. constructor; [|done]. by exists v, name, val.
Qed.

Lemma set_all_snoc h0 pairs p :
  set_all h0 (pairs ++ [p]) = Header_Set (set_all h0 pairs) p.1 p.2.
Proof. unfold set_all. by rewrite foldl_snoc. Qed.

Lemma last_value_snoc k pairs p :
  last_value k (pairs ++ [p])
  = if decide (CanonicalMIMEHeaderKey p.1 = k) then Some p.2
    else last_value k pairs.
Proof. unfold last_value. by rewrite foldl_snoc. Qed.

(** Set-by-name: under every key, the last pair set there has the only
    value; keys not set keep what they had. *)
Lemma set_all_lookup h0 pairs k :
  set_all h0 pairs !! k
  = match last_value k pairs with
    | Some v => Some [v]
    | None => h0 !! k
    end.
Proof.
  induction pairs as [|p pairs IH] using rev_ind; [done|].
  rewrite set_all_snoc, last_value_snoc. unfold Header_Set.
  destruct (decide (CanonicalMIMEHeaderKey p.1 = k)) as [<-|Hne].
  - by rewrite lookup_insert_eq.
  - by rewrite lookup_insert_ne.
Qed.

Lemma last_value_last k pairs1 name val pairs2 :
  CanonicalMIMEHeaderKey name = k ->
  Forall (fun p => CanonicalMIMEHeaderKey p.1 <> k) pairs2 ->
  last_value k (pairs1 ++ (name, val) :: pairs2) = Some val.
Proof.
  intros Hk. induction pairs2 as [|p pairs2 IH] using rev_ind; intros Hall.
  - rewrite last_value_snoc. simpl. by rewrite decide_True.
  - apply Forall_app in Hall as [Hall Hp]. apply Forall_inv in Hp.
    change (pairs1 ++ (name, val) :: pairs2 ++ [p])
      with (pairs1 ++ ((name, val) :: pairs2) ++ [p]).
    rewrite app_assoc, last_value_snoc.
    destruct (decide (CanonicalMIMEHeaderKey p.1 = k)) as [Heq|_];
      [exfalso; by apply Hp|]. by apply IH.
Qed.

End HeaderFacts.

(** ** The line loop *)

Section LoopFacts.
Context `{RT : Runtime}.
Implicit Types (cfg : Config) (st : State).

Lemma scan_loop_app cfg urlExpr ls1 ls2 st :
  scan_loop cfg urlExpr (ls1 ++ ls2) st
  = scan_loop cfg urlExpr ls2 (scan_loop cfg urlExpr ls1 st).
Proof. unfold scan_loop. apply foldl_app. Qed.

Lemma scan_loop_cons cfg urlExpr line ls st :
  scan_loop cfg urlExpr (line :: ls) st
  = scan_loop cfg urlExpr ls (step cfg urlExpr st line).
Proof. reflexivity. Qed.

Lemma step_blank cfg urlExpr st line :
  strings.TrimSpace line = "" -> step cfg urlExpr st line = st.
Proof. intros H. unfold step. by rewrite decide_True. Qed.

Lemma step_error cfg urlExpr st line err st' :
  strings.TrimSpace line <> "" ->
  processLine cfg line urlExpr st = (Some err, st') ->
  step cfg urlExpr st line = emit (Stderr (error_line err)) st'.
Proof. intros H Hp. unfold step. rewrite decide_False by done. by rewrite Hp. Qed.

Lemma step_success cfg urlExpr st line st' :
  strings.TrimSpace line <> "" ->
  processLine cfg line urlExpr st = (None, st') ->
  step cfg urlExpr st line = st'.
Proof. intros H Hp. unfold step. rewrite decide_False by done. by rewrite Hp. Qed.

Lemma env_reads_app (t1 t2 : list Event) :
  env_reads (t1 ++ t2) = (env_reads t1 + env_reads t2)%nat.
Proof. unfold env_reads. by rewrite omap_app, length_app. Qed.

(** One read of the environment per call that gets past decoding. *)
Lemma processLine_env_reads cfg line urlExpr st :
  env_reads (st_trace (processLine cfg line urlExpr st).2)
  = (env_reads (st_trace st)
     + match json_Unmarshal line with Ok _ => 1 | Err _ => 0 end)%nat.
Proof.
  rewrite processLine_trace, env_reads_app. f_equal.
  unfold line_events_spec.
  destruct (json_Unmarshal line) as [inp|e]; [|done].
  destruct (assemble cfg urlExpr (bind_context inp st)) as [req|e]; [|done].
  by destruct (client_Do req (st_world st)).1.
Qed.

Lemma step_env_reads cfg urlExpr st line :
  env_reads (st_trace (step cfg urlExpr st line))
  = (env_reads (st_trace st) + if decoded line then 1 else 0)%nat.
Proof.
  unfold step, decoded.
  destruct (decide (strings.TrimSpace line = "")) as [Hb|Hb].
  - rewrite bool_decide_eq_false_2 by (by intros ?). simpl. lia.
  - rewrite bool_decide_eq_true_2 by done. simpl.
    pose proof (processLine_env_reads cfg line urlExpr st) as H.
    destruct (processLine cfg line urlExpr st) as [[err|] st']; simpl in *.
    + rewrite env_reads_app, H. simpl.
      destruct (json_Unmarshal line); unfold env_reads; simpl; lia.
    + rewrite H. by destruct (json_Unmarshal line).
Qed.

End LoopFacts.

(** ** Errors and requests of one line *)

Section LineFacts.
Context `{RT : Runtime}.
Implicit Types (cfg : Config) (st : State).

(** Every error of [processLine] starts with the text of its phase. *)
Lemma processLine_error_phase cfg line urlExpr st err st' :
  processLine cfg line urlExpr st = (Some err, st') ->
  exists phase cause, phase ∈ phases /\ err = phase +:+ cause.
Proof.
  rewrite processLine_unfold.
  destruct (json_Unmarshal line) as [inp|e].
  2:{ intros [= <- _]. eexists _, e. split; [|done]. unfold phases. set_solver. }
  destruct (assemble cfg urlExpr (bind_context inp st)) as [req|e] eqn:Ha.
  2:{ intros [= <- _]. by apply assemble_Err in Ha. }
  rewrite send_unfold. simpl.
  destruct (client_Do req (st_world st)).1 as [resp|e].
  - destruct (decide (StatusCode resp >= 400)); [|done].
    intros [= <- _]. eexists _, (Status resp). split; [|done].
    unfold phases. set_solver.
  - intros [= <- _]. eexists _, e. split; [|done]. unfold phases. set_solver.
Qed.

(** A request that leaves the process was assembled from the decoded
    line, and its headers are the default with the pairs of the header
    expressions set over it, in order. *)
Lemma sent_assembled cfg line urlExpr st req :
  req ∈ sent cfg line urlExpr st ->
  exists inp, json_Unmarshal line = Ok inp
              /\ assemble cfg urlExpr (bind_context inp st) = Ok req.
Proof.
  rewrite sent_spec. destruct (json_Unmarshal line) as [inp|e].
  - destruct (assemble cfg urlExpr (bind_context inp st)) as [req'|e] eqn:Ha.
    + intros ->%list_elem_of_singleton. eauto.
    + by intros ?%elem_of_nil.
  - by intros ?%elem_of_nil.
Qed.

Lemma sent_headers cfg line urlExpr st req :
  req ∈ sent cfg line urlExpr st ->
  exists inp pairs,
    json_Unmarshal line = Ok inp
    /\ Forall2 (parsed_header (bind_context inp st)) (headers cfg) pairs
    /\ ReqHeader req
       = set_all (Header_Set ∅ "Content-Type" "application/json") pairs.
Proof.
  intros (inp & Hd & Ha)%sent_assembled.
  apply assemble_Ok in Ha as (url & body & _ & _ & _ & _ & _ & _ & Hh).
  apply addHeaders_Ok in Hh as (pairs & Hall & Heq). eauto.
Qed.

(** Assembling with more header expressions is assembling with the first
    ones and running the loop on the others. *)
Lemma assemble_headers_app cfg urlExpr (ctx : Bindings value) pre rest :
  headers cfg = pre ++ rest ->
  assemble cfg urlExpr ctx
  = result_bind (assemble (with_headers cfg pre) urlExpr ctx)
      (fun req' =>
         result_bind (addHeaders rest ctx (ReqHeader req'))
           (fun h => Ok {| Method := Method req'; URL := URL req';
                           ReqHeader := h; Body := Body req' |})).
Proof.
  intros Hh. unfold assemble, result_bind, wrap. simpl. rewrite Hh.
  destruct (evaluateExpression urlExpr ctx) as [url|?]; [|done].
  destruct (if decide (transform cfg = "") then _ else _) as [body|]; [|done].
  destruct (json_Marshal body) as [bytes|]; [|done].
  destruct (http_NewRequest _ _ _) as [req0|]; [|done].
  rewrite addHeaders_app. unfold result_bind.
  by destruct (addHeaders pre ctx _).
Qed.

(** Only a line that went through every phase is not an error. *)
Lemma processLine_None cfg line urlExpr st :
  (processLine cfg line urlExpr st).1 = None ->
  exists inp req resp,
    json_Unmarshal line = Ok inp
    /\ assemble cfg urlExpr (bind_context inp st) = Ok req
    /\ (client_Do req (st_world st)).1 = Ok resp
    /\ StatusCode resp < 400.
Proof.
  rewrite processLine_unfold.
  destruct (json_Unmarshal line) as [inp|e]; [|done].
  destruct (assemble cfg urlExpr (bind_context inp st)) as [req|e] eqn:Ha; [|done].
  rewrite send_unfold. simpl.
  destruct (client_Do req (st_world st)).1 as [resp|e] eqn:Hr; [|done].
  simpl. destruct (decide (StatusCode resp >= 400)); [done|].
  intros _. exists inp, req, resp. repeat split; try done. lia.
Qed.

(** The header on which the loop fails, and how. *)
Lemma addHeaders_Err_first hs (ctx : Bindings value) (h0 : Header) err :
  addHeaders hs ctx h0 = Err err ->
  exists pre header rest pairs,
    hs = pre ++ header :: rest
    /\ Forall2 (parsed_header ctx) pre pairs
    /\ ((exists e, evaluateExpression header ctx = Err e
                   /\ err = "evaluating header expression: " +:+ e)
        \/ (exists v, evaluateExpression header ctx = Ok v
                      /\ strings.Contains (fmt_v v) ":" = false
                      /\ err = "invalid header format: " +:+ fmt_v v)).
Proof.
  revert h0. induction hs as [|header rest IH]; intros h0; simpl; [done|].
  destruct (evaluateExpression header ctx) as [v|e] eqn:Hv.
  2:{ intros [= <-]. exists [], header, rest, []. split; [done|].
      split; [constructor|]. left. eauto. }
  destruct (SplitN_colon_cases (fmt_v v))
    as [[Hc Hs]|(name & val & Heq & Hc & Hs)]; rewrite Hs.
  - intros [= <-]. exists [], header, rest, []. split; [done|].
    split; [constructor|]. right. eauto.
  - intros H. destruct (IH _ H) as (pre & hd & rest' & pairs & -> & Hall & Hcase).
    exists (header :: pre), hd, rest',
      ((strings.TrimSpace name, strings.TrimSpace val) :: pairs).
    split; [done|]. split; [|done].
    constructor; [|done]. by exists v, name, val.
Qed.

(** An error of [assemble] is the error of the first phase that fails. *)
Lemma assemble_line_error cfg line urlExpr st inp err :
  json_Unmarshal line = Ok inp ->
  assemble cfg urlExpr (bind_context inp st) = Err err ->
  line_error cfg line urlExpr st err.
Proof.
  intros Hd. unfold assemble, result_bind, http_NewRequest.
  destruct (evaluateExpression urlExpr (bind_context inp st)) as [url|e] eqn:Hu;
    simpl.
  2:{ intros [= <-]. by eapply failed_url. }
  set (B := if decide (transform cfg = "") then _ else _).
  assert (match B with
          | Ok body => request_body cfg (bind_context inp st) body
          | Err e' =>
              exists e, transform cfg <> ""
                        /\ evaluateExpression (transform cfg)
                             (bind_context inp st) = Err e
                        /\ e' = "evaluating transform expression: " +:+ e
          end) as HB.
  { subst B. destruct (decide (transform cfg = "")) as [Ht|Ht]; [by left|].
    destruct (evaluateExpression (transform cfg) (bind_context inp st))
      as [body|e] eqn:Hb; simpl; [by right|eauto]. }
  destruct B as [body|e'].
  2:{ destruct HB as (e & Ht & Hb & ->). intros [= <-].
      by eapply failed_transform. }
  destruct (json_Marshal body) as [bytes|e] eqn:Hm; simpl.
  2:{ intros [= <-]. by eapply failed_marshal. }
  destruct (http_NewRequest_check _ _) as [e|] eqn:Hc; simpl.
  { intros [= <-]. by eapply failed_create. }
  destruct (addHeaders _ _ _) as [h|e] eqn:Hh; [done|].
  intros [= <-].
  apply addHeaders_Err_first in Hh
    as (pre & header & rest & pairs & Hhs & Hall
        & [(e' & He & ->)|(v & Hv & Hcol & ->)]).
  - by eapply failed_header_eval.
  - by eapply failed_header_format.
Qed.

(** An error of [processLine] is the error of the first phase that fails. *)
Lemma processLine_line_error cfg line urlExpr st err st' :
  processLine cfg line urlExpr st = (Some err, st') ->
  line_error cfg line urlExpr st err.
Proof.
  rewrite processLine_unfold.
  destruct (json_Unmarshal line) as [inp|e] eqn:Hd.
  2:{ intros [= <- _]. by constructor. }
  destruct (assemble cfg urlExpr (bind_context inp st)) as [req|e] eqn:Ha.
  2:{ intros [= <- _]. by eapply assemble_line_error. }
  rewrite send_unfold. simpl.
  destruct (client_Do req (st_world st)).1 as [resp|e] eqn:Hr.
  - destruct (decide (StatusCode resp >= 400)); [|done].
    intros [= <- _]. by eapply failed_status.
  - intros [= <- _]. by eapply failed_send.
Qed.

End LineFacts.

(** ** The claims *)

(** C8: a line that is empty or made of white space only leaves the state
    of the process as it is (the record processor is not run on it, nothing
    is written to either stream), and the run is the one of the input
    without that line. *)
Theorem C8_blank_line_skipped `{RT : Runtime} (cfg : Config)
  (urlExpr line : string) :
  strings.blank line ->
  (forall st, step cfg urlExpr st line = st)
  /\ (forall pre post rerr st,
        run cfg urlExpr {| stdin_lines := pre ++ line :: post; stdin_err := rerr |} st
        = run cfg urlExpr {| stdin_lines := pre ++ post; stdin_err := rerr |} st).
Proof.
  intros Hb. apply TrimSpace_blank in Hb.
  assert (forall st, step cfg urlExpr st line = st) as Hstep.
  { intros st. by apply step_blank. }
  split; [done|]. intros pre post rerr st. unfold run. simpl.
  by rewrite !scan_loop_app, scan_loop_cons, Hstep.
Qed.

(** C3: a line on which [processLine] fails, in whatever phase (and it
    fails unless the line decoded, assembled, was sent and got a status
    below 400), gets one line on standard error and the loop goes on with
    the lines after it; the exit status is 1 exactly when reading standard
    input failed, and 0 at a clean end of input, whatever the lines did. *)
Theorem C3_line_errors_are_not_fatal `{RT : Runtime} (cfg : Config)
  (urlExpr : string) (pre : list string) (line : string) (post : list string)
  (rerr : option error) (st : State) (err : error) (st' : State) :
  strings.TrimSpace line <> "" ->
  processLine cfg line urlExpr (scan_loop cfg urlExpr pre st) = (Some err, st') ->
  (exists phase cause, phase ∈ phases /\ err = phase +:+ cause)
  /\ run cfg urlExpr {| stdin_lines := pre ++ line :: post; stdin_err := rerr |} st
     = run cfg urlExpr {| stdin_lines := post; stdin_err := rerr |}
         (emit (Stderr (error_line err)) st')
  /\ (forall line0 st0,
        (processLine cfg line0 urlExpr st0).1 = None ->
        exists inp req resp,
          json_Unmarshal line0 = Ok inp
          /\ assemble cfg urlExpr (bind_context inp st0) = Ok req
          /\ (client_Do req (st_world st0)).1 = Ok resp
          /\ StatusCode resp < 400)
  /\ (forall stdin st0,
        exit_status cfg urlExpr stdin st0
        = match stdin_err stdin with Some _ => 1 | None => 0 end)
  /\ (forall stdin st0 e,
        stdin_err stdin = Some e ->
        stderr (new_events (scan_loop cfg urlExpr (stdin_lines stdin) st0)
                  (run cfg urlExpr stdin st0).2)
        = ["Error reading stdin: " +:+ e +:+ newline]).
Proof.
  intros Hb Hp. split; [by eapply processLine_error_phase|]. split.
  - unfold run. simpl. rewrite scan_loop_app, scan_loop_cons.
    by rewrite (step_error _ _ _ _ _ _ Hb Hp).
  - split; [intros line0 st0; apply processLine_None|]. split.
    + intros stdin st0. unfold exit_status, run. by destruct (stdin_err stdin).
    + intros stdin st0 e He. unfold run. rewrite He. simpl.
      unfold emit. by rewrite new_events_app.
Qed.

(** C6: once a response has come back, the text [Status: ], its status,
    [, Response: ], its body and a line feed is written to standard output
    right after the request, whatever the status code; with a status code
    of 400 or more the call then returns the HTTP error, which the loop
    writes to standard error after that text before it goes on with the
    next line. *)
Theorem C6_response_reported_before_error `{RT : Runtime} (cfg : Config)
  (urlExpr line : string) (st : State) (inp : value) (req : Request)
  (resp : Response) :
  strings.TrimSpace line <> "" ->
  json_Unmarshal line = Ok inp ->
  assemble cfg urlExpr (bind_context inp st) = Ok req ->
  (client_Do req (st_world st)).1 = Ok resp ->
  let w' := (client_Do req (st_world st)).2 in
  let summary :=
    "Status: " +:+ Status resp +:+ ", Response: " +:+ RespBody resp +:+ LF in
  let t := st_trace st ++ [ReadEnviron; Do req; Stdout summary] in
  processLine cfg line urlExpr st
  = (if decide (StatusCode resp >= 400)
     then Some ("HTTP error: " +:+ Status resp) else None,
     {| st_world := w'; st_trace := t |})
  /\ (StatusCode resp >= 400 ->
      forall post,
        scan_loop cfg urlExpr (line :: post) st
        = scan_loop cfg urlExpr post
            {| st_world := w';
               st_trace :=
                 t ++ [Stderr ("Error processing line: HTTP error: "
                               +:+ Status resp +:+ LF)] |}).
Proof.
  intros Hb Hd Ha Hr w' summary t.
  assert (processLine cfg line urlExpr st
          = (if decide (StatusCode resp >= 400)
             then Some ("HTTP error: " +:+ Status resp) else None,
             {| st_world := w'; st_trace := t |})) as Hp.
  { rewrite processLine_unfold, Hd, Ha, send_unfold. simpl. rewrite Hr.
    subst t summary. by rewrite <- app_assoc. }
  split; [done|]. intros Hge post. rewrite scan_loop_cons.
  rewrite decide_True in Hp by done.
  by rewrite (step_error _ _ _ _ _ _ Hb Hp).
Qed.

(** C5: without a transform expression, the body of every request sent
    for a line is the JSON encoding of the value the line decoded to. *)
Theorem C5_body_is_reencoded_record `{RT : Runtime} (cfg : Config)
  (urlExpr line : string) (st : State) (req : Request) :
  transform cfg = "" ->
  req ∈ sent cfg line urlExpr st ->
  exists v, json_Unmarshal line = Ok v /\ json_Marshal v = Ok (Body req).
Proof.
  intros Ht (inp & Hd & Ha)%sent_assembled.
  apply assemble_Ok in Ha as (url & body & _ & Hbody & Hm & _).
  rewrite decide_True in Hbody by done. subst body. eauto.
Qed.

(** C4: the text of an evaluated header is cut at its first colon; the
    name before it and the value after it are set once trimmed of the
    white space at their ends.  A text without a colon ends the loop with
    the header-format error: the call fails and sends no request, and the
    error is the header-format one when the record assembles with the
    header expressions that come before. *)
Theorem C4_header_split_at_first_colon `{RT : Runtime} (cfg : Config)
  (urlExpr line : string) (st : State) (inp : value) (header : string)
  (v : value) :
  let ctx := bind_context inp st in
  evaluateExpression header ctx = Ok v ->
  (forall name val rest h,
      fmt_v v = name +:+ ":" +:+ val ->
      strings.Contains name ":" = false ->
      addHeaders (header :: rest) ctx h
      = addHeaders rest ctx
          (Header_Set h (strings.TrimSpace name) (strings.TrimSpace val))
      /\ trims_to name (strings.TrimSpace name)
      /\ trims_to val (strings.TrimSpace val))
  /\ (strings.Contains (fmt_v v) ":" = false ->
      (forall rest h,
          addHeaders (header :: rest) ctx h
          = Err ("invalid header format: " +:+ fmt_v v))
      /\ (json_Unmarshal line = Ok inp ->
          header ∈ headers cfg ->
          is_Some (processLine cfg line urlExpr st).1
          /\ sent cfg line urlExpr st = [])
      /\ (forall pre rest req',
            json_Unmarshal line = Ok inp ->
            headers cfg = pre ++ header :: rest ->
            assemble (with_headers cfg pre) urlExpr ctx = Ok req' ->
            processLine cfg line urlExpr st
            = (Some ("invalid header format: " +:+ fmt_v v),
               emit ReadEnviron st))).
Proof.
  intros ctx Hv. split.
  - intros name val rest h Hs Hc. split; [by eapply addHeaders_colon|].
    split; apply TrimSpace_spec.
  - intros Hc. split; [intros rest h; by apply addHeaders_no_colon|].
    split.
    2:{ intros pre rest req' Hd Hh Hpre.
        rewrite processLine_unfold, Hd. fold ctx.
        rewrite (assemble_headers_app _ _ _ _ _ Hh), Hpre. cbn [result_bind].
        by rewrite (addHeaders_no_colon _ _ _ _ _ Hv Hc). }
    intros Hd Hin.
    assert (exists err, assemble cfg urlExpr ctx = Err err) as [err Ha].
    { unfold assemble, result_bind, wrap.
      destruct (evaluateExpression urlExpr ctx); [|eauto].
      destruct (if decide (transform cfg = "") then _ else _) as [body|]; [|eauto].
      destruct (json_Marshal body); [|eauto].
      destruct (http_NewRequest _ _ _) as [req0|]; [|eauto].
      destruct (addHeaders_member_no_colon (headers cfg) header ctx
                  (Header_Set (ReqHeader req0) "Content-Type" "application/json")
                  v Hin Hv Hc) as [e ->]. eauto. }
    rewrite sent_spec, processLine_unfold, Hd. fold ctx. rewrite Ha. eauto.
Qed.

(** C7: in every request sent, the headers are the default with the pair
    of each header expression set over it in the order of the expressions;
    under every key only the value set last remains, so a later header
    with the same name takes the place of an earlier one. *)
Theorem C7_headers_in_order_last_wins `{RT : Runtime} (cfg : Config)
  (urlExpr line : string) (st : State) (req : Request) :
  req ∈ sent cfg line urlExpr st ->
  exists inp pairs,
    json_Unmarshal line = Ok inp
    /\ Forall2 (parsed_header (bind_context inp st)) (headers cfg) pairs
    /\ ReqHeader req
       = set_all (Header_Set ∅ "Content-Type" "application/json") pairs
    /\ (forall pairs1 name val pairs2,
          pairs = pairs1 ++ (name, val) :: pairs2 ->
          Forall (fun p => CanonicalMIMEHeaderKey p.1
                           <> CanonicalMIMEHeaderKey name) pairs2 ->
          ReqHeader req !! CanonicalMIMEHeaderKey name = Some [val]).
Proof.
  intros (inp & pairs & Hd & Hall & Hh)%sent_headers.
  exists inp, pairs. repeat split; try done.
  intros pairs1 name val pairs2 -> Hlast.
  rewrite Hh, set_all_lookup. by rewrite last_value_last.
Qed.

(** C10: in every request sent, the headers start from the default
    Content-Type entry and the user headers are set over it by name; the
    Content-Type key holds exactly one value, the default one when no user
    header has that key and otherwise the value of the last user header
    that has it. *)
Theorem C10_content_type_replaced_not_duplicated `{RT : Runtime} (cfg : Config)
  (urlExpr line : string) (st : State) (req : Request) :
  req ∈ sent cfg line urlExpr st ->
  exists inp pairs,
    json_Unmarshal line = Ok inp
    /\ Forall2 (parsed_header (bind_context inp st)) (headers cfg) pairs
    /\ ReqHeader req
       = set_all (Header_Set ∅ "Content-Type" "application/json") pairs
    /\ ReqHeader req !! CanonicalMIMEHeaderKey "Content-Type"
       = Some [default "application/json"
                 (last_value (CanonicalMIMEHeaderKey "Content-Type") pairs)].
Proof.
  intros (inp & pairs & Hd & Hall & Hh)%sent_headers.
  exists inp, pairs. repeat split; try done.
  rewrite Hh, set_all_lookup.
  destruct (last_value _ pairs); [done|]. unfold Header_Set.
  by rewrite lookup_insert_eq.
Qed.

(** C1: no dry-run flag is registered, and no setting of the flags that
    exist keeps an assembled request in the process: for a line that
    decodes and assembles, the request is sent, and standard output gets
    the status line of the response, if one comes, and nothing else. *)
Theorem C1_assembled_request_is_always_sent `{RT : Runtime} (cfg : Config)
  (urlExpr line : string) (st : State) (inp : value) (req : Request) :
  json_Unmarshal line = Ok inp ->
  assemble cfg urlExpr (bind_context inp st) = Ok req ->
  flag_registered "dry-run" = false
  /\ sent cfg line urlExpr st = [req]
  /\ stdout (new_events st (processLine cfg line urlExpr st).2)
     = match (client_Do req (st_world st)).1 with
       | Ok resp => [status_line resp]
       | Err _ => []
       end.
Proof.
  intros Hd Ha. split; [reflexivity|]. split.
  - by rewrite sent_spec, Hd, Ha.
  - rewrite processLine_new_events. unfold line_events_spec. rewrite Hd, Ha.
    by destruct (client_Do req (st_world st)).1.
Qed.

(** C2: the environment is read once for every line that is not blank and
    decodes as JSON, and the context of such a line gets the map built from
    what the environment holds at that moment. *)
Theorem C2_environment_read_per_decoded_line `{RT : Runtime} (cfg : Config)
  (urlExpr : string) (ls : list string) (st : State) :
  env_reads (st_trace (scan_loop cfg urlExpr ls st))
  = (env_reads (st_trace st) + length (List.filter decoded ls))%nat
  /\ (forall line,
        processLine cfg line urlExpr st =
          match json_Unmarshal line with
          | Err err => (Some ("parsing JSON: " +:+ err), st)
          | Ok inp =>
              let ctx := {| input := inp;
                            env := envMap_of (os_Environ (st_world st)) |} in
              match assemble cfg urlExpr ctx with
              | Err err => (Some err, emit ReadEnviron st)
              | Ok req => send req (emit ReadEnviron st)
              end
          end).
Proof.
  split; [|intros line; apply processLine_unfold].
  revert st. induction ls as [|line ls IH]; intros st; [simpl; lia|].
  rewrite scan_loop_cons, IH, step_env_reads. simpl.
  destruct (decoded line); simpl; lia.
Qed.

(** C9: the text written to standard error for a failed record is
    [Error processing line: ], the error and a line feed, and the error is
    the text of the phase that failed on the record followed by the cause:
    what the decoder, the evaluator, the encoder, the request constructor
    or the client reported, the text of the header that has no colon, or
    the status of the response. *)
Theorem C9_error_line_names_phase_and_cause `{RT : Runtime} (cfg : Config)
  (urlExpr line : string) (st : State) (err : error) (st' : State) :
  strings.TrimSpace line <> "" ->
  processLine cfg line urlExpr st = (Some err, st') ->
  step cfg urlExpr st line
  = emit (Stderr ("Error processing line: " +:+ err +:+ LF)) st'
  /\ line_error cfg line urlExpr st err
  /\ (exists phase cause, phase ∈ phases /\ err = phase +:+ cause)
  /\ (forall e, json_Unmarshal line = Err e -> err = "parsing JSON: " +:+ e).
Proof.
  intros Hb Hp. split; [by apply step_error|].
  split; [by eapply processLine_line_error|].
  split; [by eapply processLine_error_phase|].
  intros e He. rewrite processLine_unfold, He in Hp. congruence.
Qed.

(** ** The claims on the examples *)

Section Examples.
Import Scenario.

Lemma C8_witness :
  strings.blank line_blank
  /\ step plain url_xy st0 line_blank = start w0
  /\ run plain url_xy
       {| stdin_lines := [line_hello] ++ line_blank :: [line_id];
          stdin_err := None |} st0
     = run plain url_xy
         {| stdin_lines := [line_hello] ++ [line_id]; stdin_err := None |}
         st0.
Proof.
  assert (strings.blank line_blank) as Hb.
  { apply TrimSpace_empty_blank. reflexivity. }
  destruct (C8_blank_line_skipped (RT := runtime) plain url_xy line_blank Hb) as [H1 H2].
  split; [exact Hb|]. split; [apply H1|apply H2].
Defined.

Lemma C3_witness :
  strings.TrimSpace line_bad <> ""
  /\ processLine plain line_bad url_xy
       (scan_loop plain url_xy [line_hello] st0)
     = (Some "parsing JSON: invalid character",
        scan_loop plain url_xy [line_hello] st0)
  /\ run plain url_xy
       {| stdin_lines := [line_hello] ++ line_bad :: [line_id];
          stdin_err := None |} st0
     = run plain url_xy {| stdin_lines := [line_id]; stdin_err := None |}
         (emit (Stderr (error_line "parsing JSON: invalid character"))
            (scan_loop plain url_xy [line_hello] st0))
  /\ exit_status plain url_xy
       {| stdin_lines := [line_hello; line_bad; line_id]; stdin_err := None |}
       st0 = 0.
Proof.
  assert (strings.TrimSpace line_bad <> "") as Hb by (vm_compute; discriminate).
  assert (processLine plain line_bad url_xy
            (scan_loop plain url_xy [line_hello] st0)
          = (Some "parsing JSON: invalid character",
             scan_loop plain url_xy [line_hello] st0)) as Hp
    by reflexivity.
  destruct (C3_line_errors_are_not_fatal (RT := runtime) plain url_xy [line_hello] line_bad
              [line_id] None st0 _ _ Hb Hp) as (_ & Hrun & _ & Hexit & _).
  split; [exact Hb|]. split; [exact Hp|]. split; [exact Hrun|].
  apply Hexit.
Defined.

Lemma C6_witness :
  strings.TrimSpace line_hello <> ""
  /\ json_Unmarshal line_hello = Ok hello
  /\ assemble plain url_xy (bind_context hello st404) = Ok req_hello
  /\ (client_Do req_hello w404).1 = Ok resp_404
  /\ processLine plain line_hello url_xy st404
     = (Some "HTTP error: 404 Not Found",
        {| st_world := {| environ := ["TOKEN=abc123"];
                          replies := [ok_200 "next"] |};
           st_trace :=
             [ReadEnviron; Do req_hello;
              Stdout ("Status: 404 Not Found, Response: nothing here"
                      +:+ LF)] |})
  /\ scan_loop plain url_xy [line_hello; line_id] st404
     = scan_loop plain url_xy [line_id]
         {| st_world := {| environ := ["TOKEN=abc123"];
                           replies := [ok_200 "next"] |};
            st_trace :=
              [ReadEnviron; Do req_hello;
               Stdout ("Status: 404 Not Found, Response: nothing here"
                       +:+ LF);
               Stderr ("Error processing line: HTTP error: 404 Not Found"
                       +:+ LF)] |}.
Proof.
  assert (strings.TrimSpace line_hello <> "") as Hb by (vm_compute; discriminate).
  assert (json_Unmarshal line_hello = Ok hello) as Hd by reflexivity.
  assert (assemble plain url_xy (bind_context hello st404) = Ok req_hello)
    as Ha by (vm_compute; reflexivity).
  assert ((client_Do req_hello w404).1 = Ok resp_404) as Hr by reflexivity.
  destruct (C6_response_reported_before_error (RT := runtime) plain url_xy line_hello
              st404 hello req_hello resp_404 Hb Hd Ha Hr) as [Hp Hl].
  split; [exact Hb|]. split; [exact Hd|]. split; [exact Ha|].
  split; [exact Hr|]. split; [exact Hp|].
  apply (Hl ltac:(vm_compute; discriminate) [line_id]).
Defined.

Lemma C5_witness :
  transform plain = ""
  /\ req_hello ∈ sent plain line_hello url_xy st0
  /\ exists v, json_Unmarshal line_hello = Ok v
               /\ json_Marshal v = Ok body_hello.
Proof.
  assert (req_hello ∈ sent plain line_hello url_xy st0) as Hs.
  { replace (sent plain line_hello url_xy st0) with [req_hello]
      by (vm_compute; reflexivity).
    by apply list_elem_of_singleton. }
  split; [reflexivity|]. split; [exact Hs|].
  exact (C5_body_is_reencoded_record (RT := runtime) plain url_xy line_hello st0
           req_hello eq_refl Hs).
Defined.

Lemma C4_witness :
  (evaluateExpression header_plain (bind_context hello st0)
   = Ok (JStr "content-type :  text/plain ")
   /\ addHeaders [header_plain] (bind_context hello st0) ∅
      = Ok {[ "Content-Type" := ["text/plain"] ]}
   /\ trims_to "content-type " "content-type"
   /\ trims_to "  text/plain " "text/plain")
  /\ (evaluateExpression header_nocolon (bind_context hello st0)
      = Ok (JStr "Authorization Bearer")
      /\ addHeaders [header_nocolon; header_plain] (bind_context hello st0) ∅
         = Err "invalid header format: Authorization Bearer"
      /\ is_Some (processLine (post [header_trace1; header_nocolon] "")
                    line_hello url_xy st0).1
      /\ sent (post [header_trace1; header_nocolon] "") line_hello url_xy st0
         = []
      /\ processLine (post [header_trace1; header_nocolon] "")
           line_hello url_xy st0
         = (Some "invalid header format: Authorization Bearer",
            emit ReadEnviron st0)).
Proof.
  split.
  - assert (evaluateExpression header_plain (bind_context hello st0)
            = Ok (JStr "content-type :  text/plain ")) as Hv by reflexivity.
    destruct (C4_header_split_at_first_colon (RT := runtime) plain url_xy
                line_hello st0 hello header_plain _ Hv) as [Hcut _].
    destruct (Hcut "content-type " "  text/plain " [] ∅ eq_refl eq_refl)
      as (Hset & Hn & Hval).
    split; [exact Hv|]. split; [exact Hset|]. split; [exact Hn|exact Hval].
  - assert (evaluateExpression header_nocolon (bind_context hello st0)
            = Ok (JStr "Authorization Bearer")) as Hv by reflexivity.
    destruct (C4_header_split_at_first_colon (RT := runtime)
                (post [header_trace1; header_nocolon] "") url_xy
                line_hello st0 hello header_nocolon _ Hv) as [_ Hno].
    destruct (Hno eq_refl) as (Herr & Hline & Hfmt).
    assert (header_nocolon ∈ [header_trace1; header_nocolon]) as Hin.
    { apply list_elem_of_In. simpl. auto. }
    destruct (Hline eq_refl Hin) as [Hfail Hsent].
    split; [exact Hv|]. split; [apply Herr|]. split; [exact Hfail|].
    split; [exact Hsent|].
    eapply (Hfmt [header_trace1] []); [reflexivity|reflexivity|].
    vm_compute. reflexivity.
Defined.

Lemma C7_witness :
  req_trace ∈ sent (post [header_trace1; header_auth; header_trace2] "")
                line_hello url_xy st0
  /\ exists inp pairs,
       json_Unmarshal line_hello = Ok inp
       /\ Forall2 (parsed_header (bind_context inp st0))
            [header_trace1; header_auth; header_trace2] pairs
       /\ ReqHeader req_trace
          = set_all (Header_Set ∅ "Content-Type" "application/json") pairs
       /\ (forall pairs1 name val pairs2,
             pairs = pairs1 ++ (name, val) :: pairs2 ->
             Forall (fun p => canonical p.1 <> canonical name) pairs2 ->
             ReqHeader req_trace !! canonical name = Some [val]).
Proof.
  assert (req_trace ∈ sent (post [header_trace1; header_auth; header_trace2] "")
                        line_hello url_xy st0) as Hs.
  { replace (sent _ line_hello url_xy st0) with [req_trace]
      by (vm_compute; reflexivity).
    by apply list_elem_of_singleton. }
  split; [exact Hs|].
  exact (C7_headers_in_order_last_wins (RT := runtime) _ _ _ _ _ Hs).
Defined.

Lemma C10_witness :
  req_plain ∈ sent (post [header_plain] transform_data) line_hello url_xy st0
  /\ exists inp pairs,
       json_Unmarshal line_hello = Ok inp
       /\ Forall2 (parsed_header (bind_context inp st0)) [header_plain] pairs
       /\ ReqHeader req_plain
          = set_all (Header_Set ∅ "Content-Type" "application/json") pairs
       /\ ReqHeader req_plain !! "Content-Type"
          = Some [default "application/json" (last_value "Content-Type" pairs)].
Proof.
  assert (req_plain ∈ sent (post [header_plain] transform_data)
                        line_hello url_xy st0) as Hs.
  { replace (sent _ line_hello url_xy st0) with [req_plain]
      by (vm_compute; reflexivity).
    by apply list_elem_of_singleton. }
  split; [exact Hs|].
  exact (C10_content_type_replaced_not_duplicated (RT := runtime) _ _ _ _ _ Hs).
Defined.

(** The dry-run example of the README, as the program runs it once the
    flag it does not know is left out. *)
Lemma C1_witness :
  json_Unmarshal line_test = Ok (JObj [("test", JStr "data")])
  /\ assemble (post [header_json] transform_wrapped) url_test
       (bind_context (JObj [("test", JStr "data")]) st0) = Ok req_dry
  /\ flag_registered "dry-run" = false
  /\ sent (post [header_json] transform_wrapped) line_test url_test st0
     = [req_dry]
  /\ stdout (new_events st0
               (processLine (post [header_json] transform_wrapped)
                  line_test url_test st0).2)
     = ["Status: 200 OK, Response: first" +:+ newline].
Proof.
  assert (json_Unmarshal line_test = Ok (JObj [("test", JStr "data")]))
    as Hd by reflexivity.
  assert (assemble (post [header_json] transform_wrapped) url_test
            (bind_context (JObj [("test", JStr "data")]) st0) = Ok req_dry)
    as Ha by (vm_compute; reflexivity).
  destruct (C1_assembled_request_is_always_sent (RT := runtime)
              _ _ _ _ _ _ Hd Ha) as (Hflag & Hsent & Hout).
  split; [exact Hd|]. split; [exact Ha|]. split; [exact Hflag|].
  split; [exact Hsent|exact Hout].
Defined.

Lemma C9_witness :
  strings.TrimSpace line_hello <> ""
  /\ processLine (post [header_trace1; header_nocolon] "") line_hello url_xy st0
     = (Some "invalid header format: Authorization Bearer",
        emit ReadEnviron st0)
  /\ step (post [header_trace1; header_nocolon] "") url_xy st0 line_hello
     = emit (Stderr ("Error processing line: "
                     +:+ "invalid header format: Authorization Bearer"
                     +:+ LF)) (emit ReadEnviron st0)
  /\ line_error (post [header_trace1; header_nocolon] "") line_hello url_xy st0
       "invalid header format: Authorization Bearer".
Proof.
  assert (strings.TrimSpace line_hello <> "") as Hb by (vm_compute; discriminate).
  assert (processLine (post [header_trace1; header_nocolon] "")
            line_hello url_xy st0
          = (Some "invalid header format: Authorization Bearer",
             emit ReadEnviron st0)) as Hp by reflexivity.
  destruct (C9_error_line_names_phase_and_cause (RT := runtime)
              _ _ _ _ _ _ Hb Hp) as (Hstep & Herr & _).
  split; [exact Hb|]. split; [exact Hp|]. split; [exact Hstep|exact Herr].
Defined.

(** C2, as stated, fails: with two JSON lines on standard input the
    environment is read twice, not once. *)
Lemma C2_counterexample :
  env_reads (st_trace (run plain url_xy
                         {| stdin_lines := [line_hello; line_id];
                            stdin_err := None |} st0).2) = 2%nat
  /\ env_reads (st_trace (run plain url_xy
                            {| stdin_lines := [line_hello; line_id];
                               stdin_err := None |} st0).2) <> 1%nat.
Proof.
  assert (env_reads (st_trace (run plain url_xy
                         {| stdin_lines := [line_hello; line_id];
                            stdin_err := None |} st0).2) = 2%nat) as H
    by (vm_compute; reflexivity).
  split; [exact H|]. rewrite H. lia.
Qed.

(** C9, as stated, fails: the same bad line on the first and on the
    second line of the input gets the same text on standard error, so no
    reading of that text gives the line number. *)
Lemma C9_counterexample :
  ~ exists line_number : string -> nat,
      forall i e,
        stderr (st_trace (run plain url_xy
                            {| stdin_lines := [line_bad; line_bad];
                               stdin_err := None |} st0).2) !! i = Some e ->
        line_number e = S i.
Proof.
  intros [line_number H].
  pose proof (H 0%nat _ eq_refl) as H0.
  pose proof (H 1%nat _ eq_refl) as H1.
  vm_compute in H0, H1. congruence.
Qed.

End Examples.

(** ** The end-to-end scenarios, run *)

Section Scenarios.
Import Scenario.

Example TrimSpace_ascii : strings.TrimSpace "  X-Id 	" = "X-Id".
Proof. reflexivity. Qed.

Example TrimSpace_inner_space_kept :
  strings.TrimSpace " Bearer  abc " = "Bearer  abc".
Proof. reflexivity. Qed.

Example SplitN_first_colon_only :
  strings.SplitN "Authorization: Bearer a:b" ":" 2
  = ["Authorization"; " Bearer a:b"].
Proof. reflexivity. Qed.

Example SplitN_without_colon :
  strings.SplitN "no colon here" ":" 2 = ["no colon here"].
Proof. reflexivity. Qed.

Example SplitN_empty : strings.SplitN "" ":" 2 = [""].
Proof. reflexivity. Qed.

Example getEnvMap_skips_malformed :
  envMap_of ["TOKEN=abc123"; "malformed"; "A=b=c"]
  = <["A" := "b=c"]> {[ "TOKEN" := "abc123" ]}.
Proof. vm_compute. reflexivity. Qed.

(** Scenario 1: the line is sent re-encoded, with POST. *)
Example scenario_plain_post :
  sent plain line_hello url_xy st0 = [req_hello].
Proof. vm_compute. reflexivity. Qed.

(** Scenario 2: the transform wraps the record. *)
Example scenario_transform :
  Body <$> sent (post [] transform_data) line_id url_xy st0
  = ["{" +:+ qt "data" +:+ ":{" +:+ qt "id" +:+ ":123}}"].
Proof. vm_compute. reflexivity. Qed.

(** Scenario 3: the URL is computed from the record. *)
Example scenario_url :
  URL <$> sent plain line_queue url_queue st0 = ["http://h/p?queue=urgent"].
Proof. vm_compute. reflexivity. Qed.

(** Scenario 4: a header built from the environment. *)
Example scenario_header_from_env :
  (fun req => ReqHeader req !! "Authorization")
    <$> sent (post [header_auth] "") line_hello url_xy st0
  = [Some ["Bearer abc123"]].
Proof. vm_compute. reflexivity. Qed.

(** Scenarios 5 and 6: a bad line and a 404 among good lines. *)
Example scenario_bad_line_and_404 :
  let r := run plain url_xy
             {| stdin_lines := [line_hello; line_bad; ""; line_id; line_queue];
                stdin_err := None |} st0 in
  r.1 = None
  /\ stdout (st_trace r.2)
     = ["Status: 200 OK, Response: first" +:+ newline;
        "Status: 404 Not Found, Response: nothing here" +:+ newline;
        "Status: 200 OK, Response: third" +:+ newline]
  /\ stderr (st_trace r.2)
     = ["Error processing line: parsing JSON: invalid character" +:+ newline;
        "Error processing line: HTTP error: 404 Not Found" +:+ newline]
  /\ length (requests (st_trace r.2)) = 3%nat.
Proof. vm_compute. repeat split; reflexivity. Qed.

(** A read failure ends the run with status 1, after the lines read. *)
Example scenario_read_failure :
  let r := run plain url_xy
             {| stdin_lines := [line_hello];
                stdin_err := Some "bufio.Scanner: token too long" |} st0 in
  r.1 = Some 1
  /\ stderr (st_trace r.2)
     = ["Error reading stdin: bufio.Scanner: token too long" +:+ newline].
Proof. vm_compute. split; reflexivity. Qed.

End Scenarios.


(** * More of the program *)

(** ** [getEnvMap] *)

Section EnvFacts.
Import strings.
Implicit Types (e k v : string) (m : gmap string string).

Lemma SplitN_byte_first c name val :
  Contains name (String c EmptyString) = false ->
  SplitN (name +:+ String c val) (String c EmptyString) 2 = [name; val].
Proof.
  intros H. apply Contains_byte_false in H.
  unfold SplitN. rewrite to_bytes_app. simpl.
  rewrite (cut_byte_first _ _ _ H). simpl. by rewrite !of_to_bytes.
Qed.

Lemma SplitN_byte_cases c s :
  (Contains s (String c EmptyString) = false
   /\ SplitN s (String c EmptyString) 2 = [s])
  \/ (exists name val,
        s = name +:+ String c val
        /\ Contains name (String c EmptyString) = false
        /\ SplitN s (String c EmptyString) 2 = [name; val]).
Proof.
  destruct (Contains s (String c EmptyString)) eqn:E.
  - right. unfold Contains in E. apply bool_decide_eq_true in E as [[b a] E].
    simpl in E. apply cut_byte_Some in E as [Hs Hb].
    exists (of_bytes b), (of_bytes a).
    assert (s = of_bytes b +:+ String c (of_bytes a)) as Heq.
    { apply to_bytes_inj. rewrite to_bytes_app. simpl.
      by rewrite !to_of_bytes. }
    assert (Contains (of_bytes b) (String c EmptyString) = false) as Hc.
    { apply Contains_byte_false. by rewrite to_of_bytes. }
    split; [done|]. split; [done|].
    rewrite Heq at 1. by apply SplitN_byte_first.
  - left. split; [done|]. apply Contains_byte_false in E.
    apply cut_byte_None in E. unfold SplitN. simpl in *. rewrite E.
    simpl. by rewrite of_to_bytes.
Qed.

(** What one entry does to the map. *)
Lemma envMap_add_cases m e :
  (Contains e "=" = false /\ entry_key e = None /\ envMap_add m e = m)
  \/ (exists k v,
        e = k +:+ "=" +:+ v /\ Contains k "=" = false
        /\ entry_key e = Some k /\ envMap_add m e = <[k := v]> m).
Proof.
  unfold envMap_add, entry_key.
  destruct (SplitN_byte_cases "="%char e)
    as [[Hc Hs]|(k & v & Heq & Hc & Hs)]; rewrite Hs.
  - by left.
  - right. exists k, v. by repeat split.
Qed.

Lemma entry_key_Some k v :
  Contains k "=" = false -> entry_key (k +:+ "=" +:+ v) = Some k.
Proof.
  intros Hc. unfold entry_key.
  change (k +:+ "=" +:+ v) with (k +:+ String "="%char v).
  by rewrite (SplitN_byte_first "="%char k v Hc).
Qed.

Lemma envMap_add_entry m k v :
  Contains k "=" = false -> envMap_add m (k +:+ "=" +:+ v) = <[k := v]> m.
Proof.
  intros Hc. unfold envMap_add.
  change (k +:+ "=" +:+ v) with (k +:+ String "="%char v).
  by rewrite (SplitN_byte_first "="%char k v Hc).
Qed.

Lemma envMap_of_snoc l e : envMap_of (l ++ [e]) = envMap_add (envMap_of l) e.
Proof. unfold envMap_of. by rewrite foldl_snoc. Qed.

Lemma envMap_fold_other k post m :
  Forall (fun e => entry_key e <> Some k) post ->
  foldl envMap_add m post !! k = m !! k.
Proof.
  intros H. revert m. induction H as [|e post He _ IH]; intros m; [done|].
  simpl. rewrite IH.
  destruct (envMap_add_cases m e)
    as [(_ & _ & ->)|(k' & v' & _ & _ & Hk & ->)]; [done|].
  apply lookup_insert_ne. intros ->. by apply He.
Qed.

End EnvFacts.

(** X1: an entry whose key no other entry of the environment has binds
    that key to everything after the first equals sign of the entry,
    further equals signs included. *)
Theorem X1_getEnvMap_value_after_first_equals (pre post : list string)
  (k v : string) :
  strings.Contains k "=" = false ->
  Forall (fun e => entry_key e <> Some k) (pre ++ post) ->
  envMap_of (pre ++ (k +:+ "=" +:+ v) :: post) !! k = Some v.
Proof.
  intros Hk [_ Hpost]%Forall_app. unfold envMap_of. rewrite foldl_app. simpl.
  rewrite envMap_fold_other by done.
  rewrite envMap_add_entry by done. apply lookup_insert_eq.
Qed.

(** X2: every binding of the map comes from an entry of the environment of
    the form key, equals sign, value, and no key holds an equals sign. *)
Theorem X2_getEnvMap_bindings_are_entries (environ : list string)
  (k v : string) :
  envMap_of environ !! k = Some v ->
  (k +:+ "=" +:+ v) ∈ environ /\ strings.Contains k "=" = false.
Proof.
  induction environ as [|e l IH] using rev_ind; [done|].
  rewrite envMap_of_snoc.
  destruct (envMap_add_cases (envMap_of l) e)
    as [(_ & _ & ->)|(k' & v' & -> & Hc & _ & ->)].
  - intros H. destruct (IH H) as [Hin Hc]. split; [|done].
    apply elem_of_app. by left.
  - destruct (decide (k' = k)) as [->|Hne].
    + rewrite lookup_insert_eq. intros [= ->]. split; [|done].
      apply elem_of_app. right. by apply list_elem_of_singleton.
    + rewrite lookup_insert_ne by done. intros H.
      destruct (IH H) as [Hin Hc']. split; [|done].
      apply elem_of_app. by left.
Qed.

(** X3: a key is bound in the map exactly when some entry of the
    environment has it before its first equals sign; entries without an
    equals sign bind nothing, and a key no entry has is missing. *)
Theorem X3_getEnvMap_domain (environ : list string) (k : string) :
  is_Some (envMap_of environ !! k)
  <-> Exists (fun e => entry_key e = Some k) environ.
Proof.
  induction environ as [|e l IH] using rev_ind.
  - split; [by intros [? ?]|]. by intros ?%Exists_nil.
  - rewrite envMap_of_snoc, Exists_app, Exists_cons, Exists_nil.
    destruct (envMap_add_cases (envMap_of l) e)
      as [(_ & Hk & ->)|(k' & v' & _ & _ & Hk & ->)]; rewrite Hk.
    + rewrite IH. split; [by left|]. by intros [?|[?|?]].
    + destruct (decide (k' = k)) as [->|Hne].
      * rewrite lookup_insert_eq. split; [by right; left|eauto].
      * rewrite lookup_insert_ne by done. rewrite IH.
        split; [by left|]. intros [?|[[= ?]|?]]; done.
Qed.

Section EnvExamples.
Import Scenario.

Lemma X1_witness :
  strings.Contains "TOKEN" "=" = false
  /\ Forall (fun e => entry_key e <> Some "TOKEN")
       (["PATH=/bin"; "malformed"] ++ ["HOME=/root"])
  /\ envMap_of environ_ex !! "TOKEN" = Some "a=b".
Proof.
  assert (Forall (fun e => entry_key e <> Some "TOKEN")
            (["PATH=/bin"; "malformed"] ++ ["HOME=/root"])) as Hp.
  { repeat constructor; vm_compute; discriminate. }
  split; [reflexivity|]. split; [exact Hp|].
  exact (X1_getEnvMap_value_after_first_equals ["PATH=/bin"; "malformed"]
           ["HOME=/root"] "TOKEN" "a=b" eq_refl Hp).
Defined.

Lemma X2_witness :
  envMap_of environ_ex !! "HOME" = Some "/root"
  /\ "HOME=/root" ∈ environ_ex /\ strings.Contains "HOME" "=" = false.
Proof.
  assert (envMap_of environ_ex !! "HOME" = Some "/root") as H
    by (vm_compute; reflexivity).
  split; [exact H|].
  exact (X2_getEnvMap_bindings_are_entries environ_ex "HOME" "/root" H).
Defined.

End EnvExamples.

(** ** Whole runs *)

Section RunFacts.
Context `{RT : Runtime}.
Implicit Types (cfg : Config) (st : State) (ls : list string).

Lemma nonblank_true line : nonblank line = true <-> strings.TrimSpace line <> "".
Proof. unfold nonblank. by rewrite bool_decide_eq_true. Qed.

Lemma nonblank_false line : nonblank line = false <-> strings.TrimSpace line = "".
Proof.
  unfold nonblank. rewrite bool_decide_eq_false. split; [|by intros ? ?].
  intros H. by destruct (decide (strings.TrimSpace line = "")).
Qed.

(** One iteration of the loop: the new state and the events, case by case. *)
Lemma step_cases cfg urlExpr st line :
  exists evs,
    step_shape cfg urlExpr st line evs
    /\ st_trace (step cfg urlExpr st line) = st_trace st ++ evs
    /\ (requests evs = [] -> st_world (step cfg urlExpr st line) = st_world st).
Proof.
  unfold step. destruct (decide (strings.TrimSpace line = "")) as [Hb|Hb].
  { exists []. split; [constructor; by apply nonblank_false|].
    split; [by rewrite app_nil_r|done]. }
  apply nonblank_true in Hb. rewrite processLine_unfold.
  destruct (json_Unmarshal line) as [inp|e] eqn:Hd.
  2:{ eexists. split; [by eapply shape_decode|]. done. }
  destruct (assemble cfg urlExpr (bind_context inp st)) as [req|e] eqn:Ha.
  2:{ eexists. split; [by eapply shape_assemble|]. simpl.
      split; [by rewrite <- app_assoc|done]. }
  rewrite send_unfold. simpl.
  destruct (client_Do req (st_world st)).1 as [resp|e] eqn:Hr.
  - destruct (decide (StatusCode resp >= 400)) as [Hge|Hlt].
    + eexists. split; [by eapply shape_status|]. simpl.
      split; [by rewrite <- !app_assoc|done].
    + eexists. split; [eapply shape_ok; eauto; lia|]. simpl.
      split; [by rewrite <- !app_assoc|done].
  - eexists. split; [by eapply shape_send|]. simpl.
    split; [by rewrite <- !app_assoc|done].
Qed.

Lemma step_trace cfg urlExpr st line :
  st_trace (step cfg urlExpr st line)
  = st_trace st ++ step_events cfg urlExpr st line.
Proof.
  destruct (step_cases cfg urlExpr st line) as (evs & _ & Ht & _).
  unfold step_events, new_events. rewrite Ht. by rewrite drop_app_length.
Qed.

Lemma step_events_shape cfg urlExpr st line :
  step_shape cfg urlExpr st line (step_events cfg urlExpr st line).
Proof.
  destruct (step_cases cfg urlExpr st line) as (evs & Hs & Ht & _).
  unfold step_events, new_events. rewrite Ht. by rewrite drop_app_length.
Qed.

Lemma step_world cfg urlExpr st line :
  requests (step_events cfg urlExpr st line) = [] ->
  st_world (step cfg urlExpr st line) = st_world st.
Proof.
  destruct (step_cases cfg urlExpr st line) as (evs & _ & Ht & Hw).
  unfold step_events, new_events. rewrite Ht, drop_app_length. exact Hw.
Qed.

Lemma loop_trace cfg urlExpr ls st :
  st_trace (scan_loop cfg urlExpr ls st)
  = st_trace st ++ loop_events cfg urlExpr ls st.
Proof.
  assert (forall st, exists evs,
             st_trace (scan_loop cfg urlExpr ls st) = st_trace st ++ evs) as H.
  { induction ls as [|line ls IH]; intros st0.
    - exists []. by rewrite app_nil_r.
    - rewrite scan_loop_cons. destruct (IH (step cfg urlExpr st0 line)) as [evs ->].
      rewrite step_trace, <- app_assoc. eauto. }
  destruct (H st) as [evs Ht]. unfold loop_events, new_events.
  rewrite Ht. by rewrite drop_app_length.
Qed.

Lemma loop_events_nil cfg urlExpr st : loop_events cfg urlExpr [] st = [].
Proof. unfold loop_events. apply new_events_refl. Qed.

Lemma loop_events_cons cfg urlExpr line ls st :
  loop_events cfg urlExpr (line :: ls) st
  = step_events cfg urlExpr st line
    ++ loop_events cfg urlExpr ls (step cfg urlExpr st line).
Proof.
  apply (app_inv_head (st_trace st)).
  rewrite <- loop_trace, scan_loop_cons, loop_trace, step_trace.
  by rewrite app_assoc.
Qed.

Lemma requests_app (t1 t2 : list Event) :
  requests (t1 ++ t2) = requests t1 ++ requests t2.
Proof. apply omap_app. Qed.

Lemma stdout_app (t1 t2 : list Event) :
  stdout (t1 ++ t2) = stdout t1 ++ stdout t2.
Proof. apply omap_app. Qed.

Lemma stderr_app (t1 t2 : list Event) :
  stderr (t1 ++ t2) = stderr t1 ++ stderr t2.
Proof. apply omap_app. Qed.

End RunFacts.

Section RunCounts.
Context `{RT : Runtime}.
Implicit Types (cfg : Config) (st : State) (ls : list string).

Lemma step_shape_counts cfg urlExpr st line evs :
  step_shape cfg urlExpr st line evs ->
  (length (stdout evs) <= length (requests evs))%nat
  /\ (length (requests evs) <= if decoded line then 1 else 0)%nat
  /\ (length (stderr evs) <= if nonblank line then 1 else 0)%nat
  /\ ((if nonblank line then 1 else 0)
      <= length (stdout evs) + length (stderr evs))%nat.
Proof.
  unfold decoded. fold (nonblank line).
  destruct 1 as [Hb|e Hb Hd|inp e Hb Hd Ha|inp req e Hb Hd Ha Hr
                 |inp req resp Hb Hd Ha Hr Hs|inp req resp Hb Hd Ha Hr Hs];
    rewrite Hb; try rewrite Hd; simpl; lia.
Qed.


Lemma last_value_None k (pairs : list (string * string)) :
  last_value k pairs = None <-> k ∉ header_keys pairs.
Proof.
  unfold header_keys.
  induction pairs as [|p pairs IH] using rev_ind.
  - split; [intros _; apply not_elem_of_nil|done].
  - rewrite last_value_snoc, fmap_app, not_elem_of_app. simpl.
    destruct (decide (CanonicalMIMEHeaderKey p.1 = k)) as [<-|Hne].
    + split; [done|]. intros [_ H]. exfalso. apply H. left.
    + rewrite IH. split; [|by intros [? _]].
      intros H. split; [done|]. intros Hin.
      apply list_elem_of_singleton in Hin. by apply Hne.
Qed.

End RunCounts.

(** X4: over any input, a status line is printed only for a request that
    was sent, and at most one request is sent for each line that is not
    blank and decodes as JSON. *)
Theorem X4_one_request_per_line_at_most `{RT : Runtime} (cfg : Config)
  (urlExpr : string) (ls : list string) (st : State) :
  (length (stdout (loop_events cfg urlExpr ls st))
   <= length (requests (loop_events cfg urlExpr ls st)))%nat
  /\ (length (requests (loop_events cfg urlExpr ls st))
      <= length (List.filter decoded ls))%nat.
Proof.
  revert st. induction ls as [|line ls IH]; intros st.
  - rewrite loop_events_nil. simpl. lia.
  - rewrite loop_events_cons, stdout_app, requests_app, !length_app.
    destruct (IH (step cfg urlExpr st line)) as [IH1 IH2].
    destruct (step_shape_counts _ _ _ _ _ (step_events_shape cfg urlExpr st line))
      as (H1 & H2 & _).
    simpl. destruct (decoded line); simpl; lia.
Qed.

(** X5: no line that is not blank goes unreported: each one causes a
    write to standard output or a write to standard error, or both, and
    never more than one write to either; blank lines cause no write.  (A
    write is one status text or one error text, whatever line feeds the
    response body or the cause hold.) *)
Theorem X5_every_nonblank_line_is_reported `{RT : Runtime} (cfg : Config)
  (urlExpr : string) (ls : list string) (st : State) :
  (length (List.filter nonblank ls)
   <= length (stdout (loop_events cfg urlExpr ls st))
      + length (stderr (loop_events cfg urlExpr ls st)))%nat
  /\ (length (stdout (loop_events cfg urlExpr ls st))
      <= length (List.filter nonblank ls))%nat
  /\ (length (stderr (loop_events cfg urlExpr ls st))
      <= length (List.filter nonblank ls))%nat.
Proof.
  revert st. induction ls as [|line ls IH]; intros st.
  - rewrite loop_events_nil. simpl. lia.
  - rewrite loop_events_cons, stdout_app, stderr_app, !length_app.
    destruct (IH (step cfg urlExpr st line)) as (IH1 & IH2 & IH3).
    destruct (step_shape_counts _ _ _ _ _ (step_events_shape cfg urlExpr st line))
      as (H1 & H2 & H3 & H4).
    assert (length (requests (step_events cfg urlExpr st line))
            <= if nonblank line then 1 else 0)%nat as H2'.
    { unfold decoded in H2. fold (nonblank line) in H2.
      destruct (nonblank line); simpl in H2; [|done].
      destruct (json_Unmarshal line); lia. }
    simpl. destruct (nonblank line); simpl; lia.
Qed.


(** X9: with a transform expression, the body of every request sent for a
    line is the JSON encoding of the value of that expression on the
    decoded line and the environment, not of the line itself. *)
Theorem X9_body_is_encoded_transform `{RT : Runtime} (cfg : Config)
  (urlExpr line : string) (st : State) (req : Request) :
  transform cfg <> "" ->
  req ∈ sent cfg line urlExpr st ->
  exists inp v,
    json_Unmarshal line = Ok inp
    /\ evaluateExpression (transform cfg) (bind_context inp st) = Ok v
    /\ json_Marshal v = Ok (Body req).
Proof.
  intros Ht (inp & Hd & Ha)%sent_assembled.
  apply assemble_Ok in Ha as (url & body & _ & Hbody & Hm & _).
  rewrite decide_False in Hbody by done. eauto.
Qed.

(** X10: every request sent carries the configured method, GET when the
    configured method is empty, whatever the line holds, and its URL is
    the text of the value of the URL expression on the decoded line, which
    passed the checks of the request constructor. *)
Theorem X10_request_method_and_url `{RT : Runtime} (cfg : Config)
  (urlExpr line : string) (st : State) (req : Request) :
  req ∈ sent cfg line urlExpr st ->
  Method req = (if decide (requestMethod cfg = "") then "GET"
                else requestMethod cfg)
  /\ exists inp url,
       json_Unmarshal line = Ok inp
       /\ evaluateExpression urlExpr (bind_context inp st) = Ok url
       /\ URL req = fmt_v url
       /\ http_NewRequest_check (requestMethod cfg) (fmt_v url) = None.
Proof.
  intros (inp & Hd & Ha)%sent_assembled.
  apply assemble_Ok in Ha as (url & body & Hu & _ & _ & Hc & Hm & Hurl & _).
  split; [done|]. by exists inp, url.
Qed.

(** X11: the headers of every request sent are the Content-Type entry and
    the entries of the header expressions and no others, and every entry
    holds exactly one value. *)
Theorem X11_headers_are_exactly_those_set `{RT : Runtime} (cfg : Config)
  (urlExpr line : string) (st : State) (req : Request) :
  req ∈ sent cfg line urlExpr st ->
  exists inp pairs,
    json_Unmarshal line = Ok inp
    /\ Forall2 (parsed_header (bind_context inp st)) (headers cfg) pairs
    /\ (forall k, is_Some (ReqHeader req !! k)
                  <-> k = CanonicalMIMEHeaderKey "Content-Type"
                      \/ k ∈ header_keys pairs)
    /\ (forall k vs, ReqHeader req !! k = Some vs -> length vs = 1%nat).
Proof.
  intros (inp & pairs & Hd & Hall & Hh)%sent_headers.
  exists inp, pairs. split; [done|]. split; [done|].
  assert (forall k, ReqHeader req !! k
                    = match last_value k pairs with
                      | Some v => Some [v]
                      | None => Header_Set ∅ "Content-Type" "application/json" !! k
                      end) as Hlook.
  { intros k. rewrite Hh. apply set_all_lookup. }
  split.
  - intros k. rewrite Hlook.
    destruct (last_value k pairs) as [v|] eqn:Hl.
    + split; [|eauto]. intros _. right.
      destruct (decide (k ∈ header_keys pairs)) as [|Hn]; [done|].
      apply last_value_None in Hn. congruence.
    + apply last_value_None in Hl. unfold Header_Set.
      destruct (decide (CanonicalMIMEHeaderKey "Content-Type" = k)) as [<-|Hne].
      * rewrite lookup_insert_eq. split; [by left|eauto].
      * rewrite lookup_insert_ne, lookup_empty by done.
        split; [by intros [? ?]|]. intros [->|?]; done.
  - intros k vs. rewrite Hlook.
    destruct (last_value k pairs) as [v|]; [by intros [= <-]|].
    unfold Header_Set.
    destruct (decide (CanonicalMIMEHeaderKey "Content-Type" = k)) as [<-|Hne].
    + rewrite lookup_insert_eq. by intros [= <-].
    + by rewrite lookup_insert_ne, lookup_empty.
Qed.

(** X12: the first header expression that fails decides the error of the
    record: whatever header expressions follow it, they change nothing. *)
Theorem X12_first_failing_header_decides `{RT : Runtime} (cfg : Config)
  (urlExpr : string) (ctx : Bindings value) (pre more : list string)
  (err : error) :
  assemble (with_headers cfg pre) urlExpr ctx = Err err ->
  assemble (with_headers cfg (pre ++ more)) urlExpr ctx = Err err.
Proof.
  intros H.
  rewrite (assemble_headers_app (with_headers cfg (pre ++ more)) urlExpr ctx
             pre more eq_refl).
  change (with_headers (with_headers cfg (pre ++ more)) pre)
    with (with_headers cfg pre).
  by rewrite H.
Qed.

(** X13: with a URL expression that compiles for no context, no line of
    any input gets a request sent or a status text written, and every line
    that is not blank gets exactly one text on standard error, which
    reports that the line is not JSON or that the URL expression failed. *)
Theorem X13_url_expression_that_never_compiles `{RT : Runtime} (cfg : Config)
  (urlExpr : string) (ls : list string) (st : State) :
  (forall ctx, exists e, expr_Compile urlExpr ctx = Err e) ->
  requests (loop_events cfg urlExpr ls st) = []
  /\ stdout (loop_events cfg urlExpr ls st) = []
  /\ length (stderr (loop_events cfg urlExpr ls st))
     = length (List.filter nonblank ls)
  /\ Forall (fun s => exists cause,
                 s = "Error processing line: parsing JSON: " +:+ cause +:+ LF
                 \/ s = "Error processing line: evaluating URL expression: "
                          +:+ cause +:+ LF)
       (stderr (loop_events cfg urlExpr ls st)).
Proof.
  intros Hc.
  assert (forall ctx, exists e,
             assemble cfg urlExpr ctx
             = Err ("evaluating URL expression: " +:+ e)) as Ha.
  { intros ctx. destruct (Hc ctx) as [e He]. exists e.
    unfold assemble, evaluateExpression. by rewrite He. }
  assert (forall st line,
             requests (step_events cfg urlExpr st line) = []
             /\ stdout (step_events cfg urlExpr st line) = []
             /\ length (stderr (step_events cfg urlExpr st line))
                = (if nonblank line then 1%nat else 0%nat)
             /\ Forall (fun s => exists cause,
                   s = "Error processing line: parsing JSON: " +:+ cause +:+ LF
                   \/ s = "Error processing line: evaluating URL expression: "
                            +:+ cause +:+ LF)
                  (stderr (step_events cfg urlExpr st line))) as Hstep.
  { intros st0 line.
    destruct (step_events_shape cfg urlExpr st0 line)
      as [Hb|e' Hb Hd|inp e' Hb Hd Ha'|inp req e' Hb Hd Ha' Hr
          |inp req resp Hb Hd Ha' Hr Hs|inp req resp Hb Hd Ha' Hr Hs];
      try (destruct (Ha (bind_context inp st0)) as [e0 He0];
           rewrite He0 in Ha'; try discriminate);
      rewrite Hb; simpl; repeat split; try done; repeat constructor.
    - exists e'. by left.
    - injection Ha' as <-. exists e0. by right. }
  revert st. induction ls as [|line ls IH]; intros st.
  - rewrite loop_events_nil. repeat split; constructor.
  - rewrite loop_events_cons, requests_app, stdout_app, stderr_app, length_app.
    destruct (IH (step cfg urlExpr st line)) as (-> & -> & -> & IH4).
    destruct (Hstep st line) as (-> & -> & -> & H4).
    simpl. split; [done|]. split; [done|].
    split; [by destruct (nonblank line)|]. by apply Forall_app.
Qed.

(** X14: the defaults that [init] gives the flags are an empty header
    list, no transform and the method POST; run with them, every request
    sent is a POST of the re-encoded line whose only header is the default
    Content-Type. *)
Theorem X14_requests_with_default_flags `{RT : Runtime}
  (urlExpr line : string) (st : State) (req : Request) :
  req ∈ sent default_config line urlExpr st ->
  init = [ ("header", StringArrayVar (headers default_config));
           ("transform", StringVar (transform default_config));
           ("request", StringVar (requestMethod default_config)) ]
  /\ Method req = "POST"
  /\ ReqHeader req
     = {[ CanonicalMIMEHeaderKey "Content-Type" := ["application/json"] ]}
  /\ exists inp, json_Unmarshal line = Ok inp
                 /\ json_Marshal inp = Ok (Body req).
Proof.
  intros (inp & Hd & Ha)%sent_assembled.
  apply assemble_Ok in Ha as (url & body & _ & Hbody & Hm & _ & Hmeth & _ & Hh).
  simpl in *. split; [reflexivity|]. split; [done|]. split.
  - injection Hh as <-. unfold Header_Set. apply insert_empty.
  - subst body. eauto.
Qed.

Section MoreExamples.
Import Scenario.

Lemma X14_witness :
  req_hello ∈ sent default_config line_hello url_xy st0
  /\ Method req_hello = "POST"
  /\ ReqHeader req_hello = {[ "Content-Type" := ["application/json"] ]}
  /\ exists inp, json_Unmarshal line_hello = Ok inp
                 /\ json_Marshal inp = Ok (Body req_hello).
Proof.
  assert (req_hello ∈ sent default_config line_hello url_xy st0) as Hs.
  { replace (sent _ line_hello url_xy st0) with [req_hello]
      by (vm_compute; reflexivity).
    by apply list_elem_of_singleton. }
  split; [exact Hs|].
  exact (proj2 (X14_requests_with_default_flags (RT := runtime) _ _ _ _ Hs)).
Defined.

Lemma X9_witness :
  transform (post [] transform_data) <> ""
  /\ req_data ∈ sent (post [] transform_data) line_id url_xy st0
  /\ exists inp v,
       json_Unmarshal line_id = Ok inp
       /\ evaluateExpression transform_data (bind_context inp st0) = Ok v
       /\ json_Marshal v = Ok (Body req_data).
Proof.
  assert (transform (post [] transform_data) <> "") as Ht
    by (vm_compute; discriminate).
  assert (req_data ∈ sent (post [] transform_data) line_id url_xy st0) as Hs.
  { replace (sent _ line_id url_xy st0) with [req_data]
      by (vm_compute; reflexivity).
    by apply list_elem_of_singleton. }
  split; [exact Ht|]. split; [exact Hs|].
  exact (X9_body_is_encoded_transform (RT := runtime) _ _ _ _ _ Ht Hs).
Defined.

Lemma X10_witness :
  req_put ∈ sent (put [] "") line_queue url_queue st0
  /\ Method req_put = "PUT"
  /\ exists inp url,
       json_Unmarshal line_queue = Ok inp
       /\ evaluateExpression url_queue (bind_context inp st0) = Ok url
       /\ URL req_put = sprint url
       /\ request_check "PUT" (sprint url) = None.
Proof.
  assert (req_put ∈ sent (put [] "") line_queue url_queue st0) as Hs.
  { replace (sent _ line_queue url_queue st0) with [req_put]
      by (vm_compute; reflexivity).
    by apply list_elem_of_singleton. }
  split; [exact Hs|].
  exact (X10_request_method_and_url (RT := runtime) _ _ _ _ _ Hs).
Defined.

Lemma X11_witness :
  req_trace ∈ sent (post [header_trace1; header_auth; header_trace2] "")
                line_hello url_xy st0
  /\ exists inp pairs,
       json_Unmarshal line_hello = Ok inp
       /\ Forall2 (parsed_header (bind_context inp st0))
            [header_trace1; header_auth; header_trace2] pairs
       /\ (forall k, is_Some (ReqHeader req_trace !! k)
                     <-> k = "Content-Type" \/ k ∈ header_keys pairs)
       /\ (forall k vs, ReqHeader req_trace !! k = Some vs
                        -> length vs = 1%nat).
Proof.
  assert (req_trace ∈ sent (post [header_trace1; header_auth; header_trace2] "")
                        line_hello url_xy st0) as Hs.
  { replace (sent _ line_hello url_xy st0) with [req_trace]
      by (vm_compute; reflexivity).
    by apply list_elem_of_singleton. }
  split; [exact Hs|].
  exact (X11_headers_are_exactly_those_set (RT := runtime) _ _ _ _ _ Hs).
Defined.

Lemma X12_witness :
  assemble (with_headers plain [header_trace1; header_nocolon]) url_xy
    (bind_context hello st0)
  = Err "invalid header format: Authorization Bearer"
  /\ assemble (with_headers plain
                 ([header_trace1; header_nocolon] ++ [expr_broken; header_plain]))
       url_xy (bind_context hello st0)
     = Err "invalid header format: Authorization Bearer".
Proof.
  assert (assemble (with_headers plain [header_trace1; header_nocolon]) url_xy
            (bind_context hello st0)
          = Err "invalid header format: Authorization Bearer") as H
    by (vm_compute; reflexivity).
  split; [exact H|].
  exact (X12_first_failing_header_decides (RT := runtime) plain url_xy
           (bind_context hello st0) [header_trace1; header_nocolon]
           [expr_broken; header_plain] _ H).
Defined.

Lemma X13_witness :
  (forall ctx, exists e, expr_Compile expr_broken ctx = Err e)
  /\ requests (loop_events plain expr_broken
                 [line_hello; line_blank; line_bad; line_id] st0) = []
  /\ stdout (loop_events plain expr_broken
               [line_hello; line_blank; line_bad; line_id] st0) = []
  /\ length (stderr (loop_events plain expr_broken
                       [line_hello; line_blank; line_bad; line_id] st0))
     = 3%nat.
Proof.
  assert (forall ctx, exists e, expr_Compile expr_broken ctx = Err e) as Hc.
  { intros ctx. exists "unexpected token". reflexivity. }
  destruct (X13_url_expression_that_never_compiles (RT := runtime) plain
              expr_broken [line_hello; line_blank; line_bad; line_id] st0 Hc)
    as (H1 & H2 & H3 & _).
  split; [exact Hc|]. split; [exact H1|]. split; [exact H2|exact H3].
Defined.

End MoreExamples.
